(** * Complaint classifier: a shallow embedding of [ml_module/classifier.py]

    The module classifies a complaint text into one of six categories.  It
    wraps a scikit-learn pipeline (TF-IDF + multinomial naive Bayes) and falls
    back to keyword counting when the pipeline is unsure or fails.

    What is embedded, and how:
    - a Python [str] is a list of Unicode code points ([N]);
    - a Python [float] (and a numpy [float64]) is a binary64 [float];
    - [raise]/[try]/[except] is an error monad ([result]);
    - the scikit-learn pipeline is an object with two fallible methods; the
      library itself ([fit]) is a parameter of the development;
    - the model file, [joblib] and [print] are an explicit [World]. *)

From Stdlib Require Import List Bool Arith NArith ZArith Lia.
From Stdlib Require Import Ascii String.
From Stdlib Require Import Floats.
Import ListNotations.

Set Warnings "-inexact-float".

(** ** Python strings *)

Module PyStr.

Local Open Scope N_scope.

Definition char := N.
Definition str := list char.

(** A string literal of the source, as code points. *)
Definition lit (s : string) : str := map N_of_ascii (list_ascii_of_string s).

Definition in_range (lo hi c : char) : bool := ((lo <=? c) && (c <=? hi))%N.

Definition is_ascii (c : char) : bool := (c <? 128)%N.
Definition is_az (c : char) : bool := in_range 97 122 c.
Definition is_AZ (c : char) : bool := in_range 65 90 c.
Definition is_digit (c : char) : bool := in_range 48 57 c.
Definition space : char := 32.

(** [str.isspace] on one code point, which is also what [\s] matches in a
    [str] pattern and what [str.split()] and [str.strip()] treat as
    whitespace (CPython's [_PyUnicode_IsWhitespace]). *)
Definition isspace (c : char) : bool :=
  in_range 9 13 c || in_range 28 31 c || (c =? 32)%N || (c =? 133)%N
  || (c =? 160)%N || (c =? 5760)%N || in_range 8192 8202 c
  || (c =? 8232)%N || (c =? 8233)%N || (c =? 8239)%N || (c =? 8287)%N
  || (c =? 12288)%N.

Definition ascii_lower (c : char) : char := if is_AZ c then (c + 32)%N else c.

Definition eqb_str (a b : str) : bool :=
  if list_eq_dec N.eq_dec a b then true else false.

Section Lower.

(** [str.lower] on a string with a code point outside ASCII follows the
    Unicode case tables of the interpreter, which are not part of the
    repository: it is a parameter. *)
Variable unicode_lower : str -> str.

(** [str.lower] *)
Definition lower (s : str) : str :=
  if forallb is_ascii s then map ascii_lower s else unicode_lower s.

End Lower.

(** [str.lstrip()], [str.rstrip()] and [str.strip()] with no argument *)
Fixpoint lstrip (s : str) : str :=
  match s with
  | [] => []
  | c :: s' => if isspace c then lstrip s' else s
  end.

Definition rstrip (s : str) : str := rev (lstrip (rev s)).
Definition strip (s : str) : str := rstrip (lstrip s).

(** [str.split()] with no argument: the maximal runs of non-whitespace.
    [cur] is the run being scanned, most recent character first. *)
Fixpoint split_from (cur : str) (s : str) : list str :=
  match s with
  | [] => match cur with [] => [] | _ => [rev cur] end
  | c :: s' =>
      if isspace c
      then match cur with
           | [] => split_from [] s'
           | _ => rev cur :: split_from [] s'
           end
      else split_from (c :: cur) s'
  end.

Definition split (s : str) : list str := split_from [] s.

(** [sep.join(words)] *)
Fixpoint join (sep : str) (ws : list str) : str :=
  match ws with
  | [] => []
  | w :: ws' => match ws' with [] => w | _ => w ++ sep ++ join sep ws' end
  end.

(** [k in t] for strings: [k] occurs in [t] as a contiguous substring. *)
Fixpoint startswith (t k : str) : bool :=
  match k, t with
  | [], _ => true
  | _ :: _, [] => false
  | a :: k', b :: t' => (a =? b)%N && startswith t' k'
  end.

Fixpoint contains (t k : str) : bool :=
  startswith t k || match t with [] => false | _ :: t' => contains t' k end.

(** [re.sub(r'[^a-z0-9\s]', ' ', text)] *)
Definition keeps (c : char) : bool := is_az c || is_digit c || isspace c.
Definition re_sub_special (s : str) : str :=
  map (fun c => if keeps c then c else space) s.

End PyStr.
Import PyStr.

(** ** Exceptions, floats and the builtins the module uses *)

Inductive exn : Type :=
| AttributeError            (* a method looked up on [None] *)
| IndexError                (* [seq[0]] on an empty sequence *)
| ValueError                (* [max()] of an empty iterable *)
| FileNotFoundError
| UnicodeEncodeError        (* [print] of text that stdout cannot encode *)
| LibraryError (code : nat) (* anything raised inside scikit-learn or joblib *).

Inductive result (A : Type) : Type :=
| Ok (a : A)
| Raise (e : exn).
Arguments Ok {A} a.
Arguments Raise {A} e.

Definition rbind {A B} (r : result A) (k : A -> result B) : result B :=
  match r with
  | Ok a => k a
  | Raise e => Raise e
  end.

(** [seq[0]] *)
Definition item0 {A} (l : list A) : result A :=
  match l with
  | [] => Raise IndexError
  | x :: _ => Ok x
  end.

(** [max(iterable)]: the first maximal item; a later item replaces the
    current one only when it is strictly greater. *)
Fixpoint max_from (best : float) (l : list float) : float :=
  match l with
  | [] => best
  | x :: l' => max_from (if (best <? x)%float then x else best) l'
  end.

Definition py_max (l : list float) : result float :=
  match l with
  | [] => Raise ValueError
  | x :: l' => Ok (max_from x l')
  end.

(** [max(iterable, key=f)] with integer keys *)
Fixpoint max_key_from {A} (f : A -> nat) (best : A) (l : list A) : A :=
  match l with
  | [] => best
  | x :: l' => max_key_from f (if f best <? f x then x else best) l'
  end.

Definition py_max_key {A} (f : A -> nat) (l : list A) : result A :=
  match l with
  | [] => Raise ValueError
  | x :: l' => Ok (max_key_from f x l')
  end.

(** A [dict] with string keys, in insertion order. *)
Definition dict (V : Type) := list (str * V).

Fixpoint dict_set {V} (d : dict V) (k : str) (v : V) : dict V :=
  match d with
  | [] => [(k, v)]
  | (k', v') :: d' =>
      if eqb_str k' k then (k', v) :: d' else (k', v') :: dict_set d' k v
  end.

Fixpoint dict_get {V} (d : dict V) (k : str) : option V :=
  match d with
  | [] => None
  | (k', v) :: d' => if eqb_str k' k then Some v else dict_get d' k
  end.

Definition dict_keys {V} (d : dict V) : list str := map fst d.

(** ** The module's tables *)

Definition Electricity : str := lit "Electricity".
Definition Water_Supply : str := lit "Water Supply".
Definition Road_Transport : str := lit "Road & Transport".
Definition Cleanliness : str := lit "Cleanliness".
Definition Noise : str := lit "Noise".
Definition Other : str := lit "Other".

Definition CATEGORY_KEYWORDS : dict (list str) :=
  [ (Electricity, map lit
      [ "electricity"; "power"; "light"; "electric"; "voltage"; "transformer";
        "pole"; "wire"; "current"; "blackout"; "outage"; "meter"; "bill";
        "street light"; "lamp"; "bulb"; "connection"; "shock" ]%string);
    (Water_Supply, map lit
      [ "water"; "supply"; "pipe"; "leak"; "drainage"; "sewage"; "tap";
        "pipeline"; "drinking water"; "tank"; "bore"; "pump"; "pressure";
        "contaminated"; "dirty"; "overflow"; "blockage"; "clog" ]%string);
    (Road_Transport, map lit
      [ "road"; "street"; "pothole"; "traffic"; "signal"; "transport";
        "footpath"; "pavement"; "crossing"; "highway"; "pathway"; "jam";
        "congestion"; "sign"; "divider"; "crack"; "damage"; "repair" ]%string);
    (Cleanliness, map lit
      [ "garbage"; "waste"; "trash"; "dirty"; "cleanliness"; "dustbin";
        "sanitation"; "litter"; "dump"; "smell"; "hygiene"; "sweeping";
        "cleaning"; "stink"; "odor"; "filth"; "rubble"; "debris" ]%string);
    (Noise, map lit
      [ "noise"; "sound"; "loud"; "disturbance"; "Speaker"; "music";
        "construction"; "pollution"; "volume"; "shouting"; "party";
        "horn"; "siren"; "barking"; "disturb"; "quiet" ]%string);
    (Other, map lit
      [ "other"; "miscellaneous"; "general"; "complaint"; "issue";
        "problem" ]%string) ].

Definition TRAINING_DATA : dict (list str) :=
  [ (Electricity, map lit
      [ "There is no street light in our area for the past week";
        "Power outage happening daily since last month";
        "Electric pole wire is broken and hanging dangerously";
        "Transformer is making buzzing noise and sparking";
        "Street lights not working at night causing safety issues";
        "High electricity bill despite low usage";
        "Voltage fluctuation damaging home appliances";
        "Electric meter is faulty and needs replacement";
        "No power supply for 3 days in our locality";
        "Damaged electric wire near children's park" ]%string);
    (Water_Supply, map lit
      [ "No water supply for past 3 days in our area";
        "Water pipeline is leaking on the main road";
        "Dirty contaminated water coming from taps";
        "Drainage overflow causing health hazard";
        "Water pressure is very low cannot fill tanks";
        "Sewage blockage in our street smelling bad";
        "Broken water pipe wasting water";
        "No drinking water facility in the area";
        "Water tank is overflowing for days";
        "Underground water leakage damaging road" ]%string);
    (Road_Transport, map lit
      [ "Large pothole on main road causing accidents";
        "Traffic signal not working at busy intersection";
        "Road is completely damaged needs urgent repair";
        "Footpath is broken elderly people falling";
        "Missing road signs causing confusion";
        "Heavy traffic jam every morning";
        "Zebra crossing paint has faded not visible";
        "Speed breaker is too high damaging vehicles";
        "Road divider is broken dangerous for drivers";
        "Street has multiple cracks needs resurfacing" ]%string);
    (Cleanliness, map lit
      [ "Garbage not collected for a week piling up";
        "Dustbins are overflowing attracting flies";
        "People dumping waste on roadside";
        "Bad smell from garbage near residential area";
        "No waste collection in our locality";
        "Stray animals spreading garbage everywhere";
        "Open drain is full of trash causing blockage";
        "Construction debris dumped on road";
        "Littering problem in public park";
        "Sanitation workers not cleaning streets" ]%string);
    (Noise, map lit
      [ "Loud music from neighbor every night";
        "Construction noise starting at 6 AM daily";
        "DJ sound system disturbing whole colony";
        "Factory noise pollution throughout day";
        "Barking dogs not letting us sleep";
        "Party noise till late night";
        "Horn honking near hospital zone";
        "Loud speaker announcements disturbing studies";
        "Noisy generator running all night";
        "Vehicle modification causing loud sound" ]%string);
    (Other, map lit
      [ "General inquiry about municipal services";
        "Request for information";
        "Feedback on recent improvements";
        "Suggestion for area development";
        "Appreciation for good work";
        "Question about upcoming projects";
        "Request for new facility";
        "Complaint about undefined issue";
        "General grievance redressal";
        "Miscellaneous concern" ]%string) ].

(** ** The scikit-learn pipeline, the classifier object and the world *)

(** A pipeline object as [predict] uses it: both methods take a list of
    documents and may raise.  An object loaded from disk is any such object. *)
Record Pipeline : Type := {
  pl_predict : list str -> result (list str);
  pl_predict_proba : list str -> result (list (list float))
}.

(** The pipeline [Pipeline([...])] before [fit]: its methods raise. *)
Definition unfitted : Pipeline :=
  {| pl_predict := fun _ => Raise (LibraryError 0);
     pl_predict_proba := fun _ => Raise (LibraryError 0) |}.

(** The attributes of a [ComplaintClassifier]. [model] is [None] or an object. *)
Record Classifier : Type := {
  model_path : str;
  model : option Pipeline;
  categories : list str
}.

(** What is at a path: a file [joblib.load] deserialises to an object, or one
    on which it raises. *)
Inductive FileContent : Type :=
| Pickle (obj : option Pipeline)
| Corrupt (e : exn).

(** The lines the module prints. *)
Inductive Line : Type :=
| ModelTrained (samples : nat)
| ModelSaved (path : str)
| ErrorSaving (e : exn)
| ModelLoaded (path : str)
| ErrorLoading (e : exn)
| ErrorInPrediction (e : exn).

Record World : Type := {
  files : str -> option FileContent;
  dump_error : str -> option exn;   (* why a write to the path fails, if so *)
  dump_leaves : str -> option FileContent;
                                    (* what a failed write leaves at the path,
                                       when it got as far as opening it *)
  stdout_error : Line -> option exn;
                                    (* why writing the line to stdout fails,
                                       if so *)
  stdout : list Line
}.

(** The world with other files, and with more lines on stdout. *)
Definition set_files (w : World) (fs : str -> option FileContent) : World :=
  {| files := fs; dump_error := dump_error w; dump_leaves := dump_leaves w;
     stdout_error := stdout_error w; stdout := stdout w |}.
Definition write_stdout (w : World) (lines : list Line) : World :=
  {| files := files w; dump_error := dump_error w;
     dump_leaves := dump_leaves w; stdout_error := stdout_error w;
     stdout := stdout w ++ lines |}.

(** Methods run on the object and the world, and return or raise. *)
Definition State : Type := Classifier * World.
Definition M (A : Type) : Type := State -> result A * State.

Definition ret {A} (a : A) : M A := fun s => (Ok a, s).
Definition raise {A} (e : exn) : M A := fun s => (Raise e, s).
Definition bind {A B} (m : M A) (k : A -> M B) : M B :=
  fun s => match m s with
           | (Ok a, s') => k a s'
           | (Raise e, s') => (Raise e, s')
           end.
Definition lift {A} (r : result A) : M A := fun s => (r, s).
Definition try_except {A} (body : M A) (handler : exn -> M A) : M A :=
  fun s => match body s with
           | (Ok a, s') => (Ok a, s')
           | (Raise e, s') => handler e s'
           end.

Declare Scope py_scope.
Delimit Scope py_scope with py.
Notation "x <- m ;; k" := (bind m (fun x => k))
  (at level 61, m at next level, right associativity) : py_scope.
Notation "m ;;; k" := (bind m (fun _ => k))
  (at level 61, right associativity) : py_scope.
Local Open Scope py_scope.

Definition get_self : M Classifier := fun s => (Ok (fst s), s).
Definition set_model (m : option Pipeline) : M unit :=
  fun '(self, w) =>
    (Ok tt, ({| model_path := model_path self; model := m;
                categories := categories self |}, w)).
(** [print(line)]: the line is written, or the write raises. *)
Definition print (l : Line) : M unit :=
  fun '(self, w) =>
    match stdout_error w l with
    | Some e => (Raise e, (self, w))
    | None => (Ok tt, (self, write_stdout w [l]))
    end.

Definition os_path_exists (path : str) : M bool :=
  fun '(self, w) =>
    (Ok (match files w path with Some _ => true | None => false end),
     (self, w)).

Definition joblib_load (path : str) : M (option Pipeline) :=
  fun '(self, w) =>
    (match files w path with
     | Some (Pickle obj) => Ok obj
     | Some (Corrupt e) => Raise e
     | None => Raise FileNotFoundError
     end, (self, w)).

(** [joblib.dump(obj, path)]: the file is written, or the write raises and
    leaves at the path what it had got to, if it had opened the file. *)
Definition joblib_dump (obj : option Pipeline) (path : str) : M unit :=
  fun '(self, w) =>
    let put c := fun p => if eqb_str p path then Some c else files w p in
    match dump_error w path with
    | Some e =>
        (Raise e,
         (self,
          match dump_leaves w path with
          | Some c => set_files w (put c)
          | None => w
          end))
    | None => (Ok tt, (self, set_files w (put (Pickle obj))))
    end.

(** A method of [self.model]; on [None] the attribute lookup raises. *)
Definition call_model {A} (self : Classifier) (f : Pipeline -> result A)
  : result A :=
  match model self with
  | None => Raise AttributeError
  | Some p => f p
  end.

Definition default_model_path : str := lit "complaint_classifier.pkl".

(** ** The classifier *)

Section ComplaintClassifier.

Variable unicode_lower : str -> str.

(** scikit-learn's [Pipeline([tfidf, classifier]).fit(X, y)] with the
    hyper-parameters of the source; it returns the fitted pipeline or raises. *)
Variable fit : list str -> list str -> result Pipeline.

Definition preprocess_text (text : str) : str :=
  let text := lower unicode_lower text in
  let text := re_sub_special text in
  let text := join [space] (split text) in
  text.

(** [sum(1 for keyword in keywords if keyword in text_lower)] *)
Definition keyword_score (text_lower : str) (keywords : list str) : nat :=
  list_sum (map (fun _ => 1) (filter (contains text_lower) keywords)).

(** [scores.get] as the key of [max]; every key [max] visits is in [scores]. *)
Definition scores_get (scores : dict nat) (category : str) : nat :=
  match dict_get scores category with
  | Some n => n
  | None => 0
  end.

(** The loop of [keyword_based_classification] that fills [scores]. *)
Definition keyword_scores (text_lower : str) : dict nat :=
  fold_left
    (fun scores '(category, keywords) =>
       dict_set scores category (keyword_score text_lower keywords))
    CATEGORY_KEYWORDS [].

Definition keyword_based_classification (text : str) : result str :=
  let text_lower := lower unicode_lower text in
  let scores := keyword_scores text_lower in
  rbind (py_max_key (scores_get scores) (dict_keys scores))
    (fun max_category =>
       if 0 <? scores_get scores max_category
       then Ok max_category
       else Ok Other).

(** The [try] block of [predict]. *)
Definition predict_try (self : Classifier) (text processed_text : str)
    (use_keywords_fallback : bool) : result (str * float) :=
  rbind (call_model self (fun m => pl_predict m [processed_text]))
    (fun predictions =>
  rbind (item0 predictions) (fun prediction =>
  rbind (call_model self (fun m => pl_predict_proba m [processed_text]))
    (fun probas =>
  rbind (item0 probas) (fun probabilities =>
  rbind (py_max probabilities) (fun confidence =>
  if use_keywords_fallback && (confidence <? 0.4)%float
  then rbind (keyword_based_classification text)
         (fun keyword_prediction => Ok (keyword_prediction, 0.6%float))
  else Ok (prediction, confidence)))))).

Definition predict (text : str) (use_keywords_fallback : bool)
  : M (str * float) :=
  match text with
  | [] => ret (Other, 0.5%float)
  | _ =>
    if List.length (strip text) <? 10 then ret (Other, 0.5%float) else
    let processed_text := preprocess_text text in
    self <- get_self ;;
    try_except
      (lift (predict_try self text processed_text use_keywords_fallback))
      (fun e =>
         print (ErrorInPrediction e) ;;;
         keyword_prediction <- lift (keyword_based_classification text) ;;
         ret (keyword_prediction, 0.5%float))
  end.

Definition save_model : M unit :=
  try_except
    (self <- get_self ;;
     joblib_dump (model self) (model_path self) ;;;
     print (ModelSaved (model_path self)))
    (fun e => print (ErrorSaving e)).

Definition X_train : list str :=
  flat_map (fun '(category, texts) => map preprocess_text texts)
    TRAINING_DATA.
Definition y_train : list str :=
  flat_map (fun '(category, texts) => map (fun _ : str => category) texts)
    TRAINING_DATA.

Definition train : M unit :=
  set_model (Some unfitted) ;;;
  fitted <- lift (fit X_train y_train) ;;
  set_model (Some fitted) ;;;
  save_model ;;;
  print (ModelTrained (List.length X_train)).

Definition load_model : M unit :=
  try_except
    (self <- get_self ;;
     obj <- joblib_load (model_path self) ;;
     set_model obj ;;;
     print (ModelLoaded (model_path self)))
    (fun e => print (ErrorLoading e) ;;; train).

(** [model_path or <default>]: [None] and the empty string take the default. *)
Definition __init__ (path : option str) : M unit :=
  fun '(_, w) =>
    let self :=
      {| model_path := match path with
                       | Some (c :: p) => c :: p
                       | _ => default_model_path
                       end;
         model := None;
         categories := dict_keys CATEGORY_KEYWORDS |} in
    (exists_ <- os_path_exists (model_path self) ;;
     if exists_ then load_model else train) (self, w).

End ComplaintClassifier.

(** ** The module-level singleton *)

(** The module's state: the global [_classifier] and the world. *)
Definition Globals : Type := option Classifier * World.

(** An object before [__init__] has run on it. *)
Definition new_object : Classifier :=
  {| model_path := []; model := None; categories := [] |}.

Section ModuleLevel.

Variable unicode_lower : str -> str.
Variable fit : list str -> list str -> result Pipeline.

(** [ComplaintClassifier()]: a new object, initialised; the object exists for
    the caller only when [__init__] returns. *)
Definition ComplaintClassifier (path : option str) (w : World)
  : result Classifier * World :=
  match __init__ unicode_lower fit path (new_object, w) with
  | (Ok _, (self, w')) => (Ok self, w')
  | (Raise e, (_, w')) => (Raise e, w')
  end.

Definition get_classifier : Globals -> result Classifier * Globals :=
  fun '(_classifier, w) =>
    match _classifier with
    | None =>
        match ComplaintClassifier None w with
        | (Ok c, w') => (Ok c, (Some c, w'))
        | (Raise e, w') => (Raise e, (None, w'))
        end
    | Some c => (Ok c, (Some c, w))
    end.

(** [classifier] is the object [_classifier] names: what a method does to
    the one is seen through the other. *)
Definition predict_category (complaint_text : str)
  : Globals -> result (str * float) * Globals :=
  fun g =>
    match get_classifier g with
    | (Ok classifier, (_, w)) =>
        match predict unicode_lower complaint_text true (classifier, w) with
        | (r, (classifier', w')) => (r, (Some classifier', w'))
        end
    | (Raise e, g') => (Raise e, g')
    end.

End ModuleLevel.

(** ** Test doubles

    Concrete stand-ins for the parameters, used to run the definitions. *)

(** A [str.lower] that leaves code points outside ASCII alone. *)
Definition sample_lower : str -> str := map ascii_lower.

(** A pipeline that answers every document with [label] and the given row. *)
Definition stub_pipeline (label : str) (row : list float) : Pipeline :=
  {| pl_predict := fun X => Ok (map (fun _ => label) X);
     pl_predict_proba := fun X => Ok (map (fun _ => row) X) |}.

(** A pipeline whose methods raise. *)
Definition broken_pipeline (e : exn) : Pipeline :=
  {| pl_predict := fun _ => Raise e;
     pl_predict_proba := fun _ => Raise e |}.

Definition stub_fit (X y : list str) : result Pipeline :=
  Ok (stub_pipeline Other [0.1; 0.1; 0.1; 0.1; 0.1; 0.5]%float).

Definition empty_world : World :=
  {| files := fun _ => None; dump_error := fun _ => None;
     dump_leaves := fun _ => None; stdout_error := fun _ => None;
     stdout := [] |}.

Definition readonly_world : World :=
  {| files := fun _ => None; dump_error := fun _ => Some (LibraryError 30);
     dump_leaves := fun _ => None; stdout_error := fun _ => None;
     stdout := [] |}.

Definition world_with (path : str) (c : FileContent) : World :=
  {| files := fun p => if eqb_str p path then Some c else None;
     dump_error := fun _ => None; dump_leaves := fun _ => None;
     stdout_error := fun _ => None; stdout := [] |}.

(** A world whose stdout cannot encode what the module prints. *)
Definition unencodable_world : World :=
  {| files := fun _ => None; dump_error := fun _ => None;
     dump_leaves := fun _ => None;
     stdout_error := fun _ => Some UnicodeEncodeError; stdout := [] |}.

(** A pipeline fitted on other labels, by another version of the
    application, and not calibrated. *)
Definition stale_pipeline : Pipeline :=
  stub_pipeline (lit "Sanitation") [1.5%float].

Definition classifier_with (m : option Pipeline) : Classifier :=
  {| model_path := default_model_path; model := m;
     categories := dict_keys CATEGORY_KEYWORDS |}.

(** * The portal around the classifier

    [complaints/models.py], the command [populate_categories] and the part
    of the view [submit_complaint] that runs on a valid form.  Tables are
    lists of rows in insertion order; a lookup by name compares strings
    exactly. *)

Module Category.

Record t : Type := {
  pk : nat;
  name : str;                 (* unique *)
  description : option str;   (* nullable *)
  created_at : nat
}.

End Category.

Module Complaint.

Record t : Type := {
  pk : option nat;            (* [None] until the first save *)
  user : nat;
  title : str;
  description : str;
  image : option str;
  area : str;
  predicted_category : option Category.t;
  final_category : option Category.t;
  status : str;
  admin_notes : option str;
  created_at : nat;
  updated_at : nat
}.

(** [badge_map.get(self.status, 'secondary')] *)
Definition get_status_badge_class (self : t) : str :=
  let badge_map : dict str :=
    [ (lit "pending", lit "warning");
      (lit "in_progress", lit "info");
      (lit "resolved", lit "success");
      (lit "rejected", lit "danger") ] in
  match dict_get badge_map (status self) with
  | Some badge => badge
  | None => lit "secondary"
  end.

(** [self.final_category or self.predicted_category] *)
Definition get_category (self : t) : option Category.t :=
  match final_category self with
  | Some c => Some c
  | None => predicted_category self
  end.

Definition set_categories (self : t) (predicted final : option Category.t)
  : t :=
  {| pk := pk self; user := user self; title := title self;
     description := description self; image := image self;
     area := area self; predicted_category := predicted;
     final_category := final; status := status self;
     admin_notes := admin_notes self; created_at := created_at self;
     updated_at := updated_at self |}.

Definition set_user (self : t) (u : nat) : t :=
  {| pk := pk self; user := u; title := title self;
     description := description self; image := image self;
     area := area self; predicted_category := predicted_category self;
     final_category := final_category self; status := status self;
     admin_notes := admin_notes self; created_at := created_at self;
     updated_at := updated_at self |}.

End Complaint.

(** The database: the two tables, the next primary keys and the clock. *)
Record Db : Type := {
  categories_table : list Category.t;
  complaints_table : list Complaint.t;
  next_category_pk : nat;
  next_complaint_pk : nat;
  now : nat
}.

(** What a lookup of one row gives. *)
Inductive lookup (A : Type) : Type :=
| Found (a : A)
| DoesNotExist
| MultipleObjectsReturned.
Arguments Found {A} a.
Arguments DoesNotExist {A}.
Arguments MultipleObjectsReturned {A}.

(** [Category.objects.get(name=n)] *)
Definition Category_get (db : Db) (n : str) : lookup Category.t :=
  match filter (fun c => eqb_str (Category.name c) n) (categories_table db)
  with
  | [] => DoesNotExist
  | [c] => Found c
  | _ => MultipleObjectsReturned
  end.

(** [Category.objects.create(name=n, description=d)] *)
Definition Category_create (db : Db) (n : str) (d : option str)
  : Category.t * Db :=
  let c := {| Category.pk := next_category_pk db; Category.name := n;
              Category.description := d; Category.created_at := now db |} in
  (c, {| categories_table := categories_table db ++ [c];
         complaints_table := complaints_table db;
         next_category_pk := S (next_category_pk db);
         next_complaint_pk := next_complaint_pk db;
         now := S (now db) |}).

(** [category.save()] of an object with a primary key: the row with that
    key is rewritten, or the object is inserted when no row has the key. *)
Definition Category_save (db : Db) (c : Category.t) : Db :=
  {| categories_table :=
       if existsb (fun r => Category.pk r =? Category.pk c)
            (categories_table db)
       then map (fun r => if Category.pk r =? Category.pk c then c else r)
              (categories_table db)
       else categories_table db ++ [c];
     complaints_table := complaints_table db;
     next_category_pk := next_category_pk db;
     next_complaint_pk := next_complaint_pk db;
     now := S (now db) |}.

(** [Category.objects.get_or_create(name=n, defaults={'description': d})] *)
Definition Category_get_or_create (db : Db) (n d : str)
  : lookup (Category.t * bool * Db) :=
  match Category_get db n with
  | Found c => Found (c, false, db)
  | DoesNotExist =>
      let '(c, db') := Category_create db n (Some d) in Found (c, true, db')
  | MultipleObjectsReturned => MultipleObjectsReturned
  end.

(** [models.Model.save] on a complaint: insert when it has no primary key
    or no row has its key, rewrite its row otherwise; [updated_at] is set on
    every save and [created_at] on the save of an object without a key. *)
Definition Complaint_super_save (self : Complaint.t) (db : Db)
  : Complaint.t * Db :=
  let stamp (key : nat) (created : nat) : Complaint.t :=
    {| Complaint.pk := Some key; Complaint.user := Complaint.user self;
       Complaint.title := Complaint.title self;
       Complaint.description := Complaint.description self;
       Complaint.image := Complaint.image self;
       Complaint.area := Complaint.area self;
       Complaint.predicted_category := Complaint.predicted_category self;
       Complaint.final_category := Complaint.final_category self;
       Complaint.status := Complaint.status self;
       Complaint.admin_notes := Complaint.admin_notes self;
       Complaint.created_at := created;
       Complaint.updated_at := now db |} in
  match Complaint.pk self with
  | None =>
      let row := stamp (next_complaint_pk db) (now db) in
      (row, {| categories_table := categories_table db;
               complaints_table := complaints_table db ++ [row];
               next_category_pk := next_category_pk db;
               next_complaint_pk := S (next_complaint_pk db);
               now := S (now db) |})
  | Some key =>
      let row := stamp key (Complaint.created_at self) in
      (row, {| categories_table := categories_table db;
               complaints_table :=
                 (let same r := match Complaint.pk r with
                                | Some k => k =? key
                                | None => false
                                end in
                  if existsb same (complaints_table db)
                  then map (fun r => if same r then row else r)
                         (complaints_table db)
                  else complaints_table db ++ [row]);
               next_category_pk := next_category_pk db;
               next_complaint_pk := next_complaint_pk db;
               now := S (now db) |})
  end.

(** [Complaint.save]: the final category defaults to the predicted one. *)
Definition Complaint_save (self : Complaint.t) (db : Db)
  : Complaint.t * Db :=
  let self :=
    match Complaint.final_category self, Complaint.predicted_category self
    with
    | None, Some c =>
        Complaint.set_categories self (Complaint.predicted_category self)
          (Complaint.predicted_category self)
    | _, _ => self
    end in
  Complaint_super_save self db.

(** [ComplaintAdmin.get_category_display] *)
Definition get_category_display (obj : Complaint.t) : str :=
  match Complaint.get_category obj with
  | Some category => Category.name category
  | None => lit "Uncategorized"
  end.

(** [AdminResponseAdmin.short_message], on the message of the response *)
Definition short_message (message : str) : str :=
  if 50 <? List.length message
  then firstn 50 message ++ lit "..."
  else message.

(** ** [populate_categories] *)

Definition categories_data : list (str * str) :=
  [ (lit "Electricity",
     lit "Issues related to power supply, street lights, transformers, and electrical infrastructure");
    (lit "Water Supply",
     lit "Problems with water supply, pipelines, drainage, sewage, and water quality");
    (lit "Road & Transport",
     lit "Road conditions, potholes, traffic signals, footpaths, and transportation issues");
    (lit "Cleanliness",
     lit "Garbage collection, waste management, sanitation, and hygiene concerns");
    (lit "Noise",
     lit "Noise pollution, loud music, construction noise, and sound disturbances");
    (lit "Other",
     lit "General complaints and issues not covered by other categories") ].

(** The lines the command writes. *)
Inductive CommandLine : Type :=
| CreatedCategory (n : str)
| UpdatedCategory (n : str)
| CategoryExists (n : str)
| Rule
| Complete (created updated : nat).

Definition set_description (c : Category.t) (d : option str) : Category.t :=
  {| Category.pk := Category.pk c; Category.name := Category.name c;
     Category.description := d; Category.created_at := Category.created_at c |}.

Definition eqb_description (a : option str) (d : str) : bool :=
  match a with
  | Some s => eqb_str s d
  | None => false
  end.

(** The counters, the output and the database while the loop runs. *)
Definition CommandState : Type := nat * nat * list CommandLine * Db.

(** The body of the loop for one entry. *)
Definition handle_entry (cat_data : str * str) (st : CommandState)
  : lookup CommandState :=
  let '(created_count, updated_count, out, db) := st in
  let '(n, d) := cat_data in
  match Category_get_or_create db n d with
  | Found (category, created, db) =>
      if created
      then Found (S created_count, updated_count,
                  out ++ [CreatedCategory (Category.name category)], db)
      else if negb (eqb_description (Category.description category) d)
      then
        let category := set_description category (Some d) in
        let db := Category_save db category in
        Found (created_count, S updated_count,
               out ++ [UpdatedCategory (Category.name category)], db)
      else
        Found (created_count, updated_count,
               out ++ [CategoryExists (Category.name category)], db)
  | DoesNotExist => DoesNotExist
  | MultipleObjectsReturned => MultipleObjectsReturned
  end.

Fixpoint handle_loop (data : list (str * str)) (st : CommandState)
  : lookup CommandState :=
  match data with
  | [] => Found st
  | cat_data :: rest =>
      match handle_entry cat_data st with
      | Found st' => handle_loop rest st'
      | DoesNotExist => DoesNotExist
      | MultipleObjectsReturned => MultipleObjectsReturned
      end
  end.

(** [Command.handle] *)
Definition handle (db : Db) : lookup CommandState :=
  match handle_loop categories_data (0, 0, [], db) with
  | Found (created_count, updated_count, out, db) =>
      Found (created_count, updated_count,
             out ++ [Rule; Complete created_count updated_count], db)
  | DoesNotExist => DoesNotExist
  | MultipleObjectsReturned => MultipleObjectsReturned
  end.

(** ** [submit_complaint], on a valid form *)

Inductive Message : Type :=
| AutoClassified (category_name : str) (confidence : float)
| CouldNotBeDetected.

Inductive ViewOutcome : Type :=
| RedirectMyComplaints (saved : Complaint.t)
| ClassifierRaised (e : exn)
| LookupRaisedMultiple.

Record Portal : Type := {
  globals : Globals;
  db : Db;
  messages : list Message
}.

Section Views.

Variable unicode_lower : str -> str.
Variable fit : list str -> list str -> result Pipeline.

(** The view from [complaint = form.save(commit=False)] to the redirect. *)
Definition submit_complaint (complaint : Complaint.t) (request_user : nat)
    (s : Portal) : ViewOutcome * Portal :=
  let complaint := Complaint.set_user complaint request_user in
  let description := Complaint.description complaint in
  match predict_category unicode_lower fit description (globals s) with
  | (Raise e, g) =>
      (ClassifierRaised e,
       {| globals := g; db := db s; messages := messages s |})
  | (Ok (predicted_category_name, confidence), g) =>
      match Category_get (db s) predicted_category_name with
      | MultipleObjectsReturned =>
          (LookupRaisedMultiple,
           {| globals := g; db := db s; messages := messages s |})
      | Found category_obj =>
          let complaint :=
            Complaint.set_categories complaint (Some category_obj)
              (Some category_obj) in
          let '(saved, db') := Complaint_save complaint (db s) in
          (RedirectMyComplaints saved,
           {| globals := g; db := db';
              messages := messages s
                          ++ [AutoClassified predicted_category_name
                                confidence] |})
      | DoesNotExist =>
          let '(saved, db') := Complaint_save complaint (db s) in
          (RedirectMyComplaints saved,
           {| globals := g; db := db';
              messages := messages s ++ [CouldNotBeDetected] |})
      end
  end.

End Views.

(** * Specification vocabulary *)

Definition alnum (c : char) : bool := is_az c || is_digit c.

(** A word of normalised text: non-empty, lower-case letters and digits. *)
Definition word_ok (w : str) : Prop := w <> [] /\ Forall (fun c => alnum c = true) w.

(** A character of normalised text. *)
Definition norm_char (c : char) : Prop := alnum c = true \/ c = space.

Definition str_eq_dec : forall a b : str, {a = b} + {a <> b} :=
  list_eq_dec N.eq_dec.

Definition all_keywords : list str := flat_map snd CATEGORY_KEYWORDS.

(** The keyword list of a category. *)
Definition keywords_of (category : str) : list str :=
  match dict_get CATEGORY_KEYWORDS category with
  | Some keywords => keywords
  | None => []
  end.

(** How many keywords of a category occur in a lower-cased text. *)
Definition keyword_count (text_lower category : str) : nat :=
  List.length (filter (contains text_lower) (keywords_of category)).

(** The category names, in the order of the dictionary. *)
Definition enumeration : list str :=
  [Electricity; Water_Supply; Road_Transport; Cleanliness; Noise; Other].

Definition pothole : str := lit "pothole".

Definition Speaker : str := lit "Speaker".

(** The keywords of [Noise] other than "Speaker". *)
Definition noise_keywords_lowercase : list str :=
  map lit
    [ "noise"; "sound"; "loud"; "disturbance"; "music"; "construction";
      "pollution"; "volume"; "shouting"; "party"; "horn"; "siren";
      "barking"; "disturb"; "quiet" ]%string.

(** The statistical step of [predict]: the label of the pipeline and the
    largest class probability, or what the pipeline (or an indexing, or
    [max]) raised. *)
Definition statistical (self : Classifier) (processed_text : str)
  : result (str * float) :=
  rbind (call_model self (fun m => pl_predict m [processed_text]))
    (fun predictions =>
  rbind (item0 predictions) (fun prediction =>
  rbind (call_model self (fun m => pl_predict_proba m [processed_text]))
    (fun probas =>
  rbind (item0 probas) (fun probabilities =>
  rbind (py_max probabilities) (fun confidence =>
  Ok (prediction, confidence)))))).

(** The input passes the short-input check of [predict]. *)
Definition long_enough (text : str) : Prop :=
  text <> [] /\ 10 <= List.length (strip text).

(** A probability. *)
Definition in_unit_interval (c : float) : Prop :=
  (0 <=? c)%float = true /\ (c <=? 1)%float = true.

(** What scikit-learn promises of a pipeline fitted on the labels [y]: it
    predicts labels of [y] and its class probabilities are probabilities. *)
Definition fitted_on (y : list str) (p : Pipeline) : Prop :=
  (forall X labels l, pl_predict p X = Ok labels -> In l labels -> In l y)
  /\ (forall X rows row c,
        pl_predict_proba p X = Ok rows -> In row rows -> In c row ->
        in_unit_interval c).

(** The classifier has no model or one fitted on the training labels. *)
Definition model_ok (self : Classifier) : Prop :=
  match model self with
  | None => True
  | Some p => fitted_on y_train p
  end.

(** The world after [print(line)]. *)
Definition printed (w : World) (lines : list Line) : World :=
  write_stdout w lines.

Definition power_outage : str :=
  lit "Power outage happening daily since last month".
Definition big_pothole_here : str := lit "big pothole here".
Definition ten_marks : str := lit "!!!!!!!!!!".

(** The path [__init__] settles on. *)
Definition effective_path (path : option str) : str :=
  match path with
  | Some (c :: p) => c :: p
  | _ => default_model_path
  end.

(** The classifier for [path] holding the model [m]. *)
Definition built (path : str) (m : option Pipeline) : Classifier :=
  {| model_path := path; model := m; categories := enumeration |}.

(** The files of [w] with [c] written at [path]. *)
Definition with_file (w : World) (path : str) (c : FileContent)
  : str -> option FileContent :=
  fun p => if eqb_str p path then Some c else files w p.

(** The world [w] with the files [fs] and more lines printed. *)
Definition world_after (w : World) (fs : str -> option FileContent)
    (lines : list Line) : World :=
  write_stdout (set_files w fs) lines.

(** Stdout takes every line. *)
Definition stdout_ok (w : World) : Prop :=
  forall l, stdout_error w l = None.

(** The files of [w] after a write at [path] that failed. *)
Definition failed_files (w : World) (path : str)
  : str -> option FileContent :=
  match dump_leaves w path with
  | Some c => with_file w path c
  | None => files w
  end.

(** The world after a training run that fitted [fitted], on a stdout that
    takes every line: the model file is written, unless the write fails,
    which is reported. *)
Definition trained_world (w : World) (path : str) (fitted : Pipeline)
    (before : list Line) : World :=
  match dump_error w path with
  | None =>
      world_after w (with_file w path (Pickle (Some fitted)))
        (before ++ [ModelSaved path; ModelTrained 60])
  | Some e =>
      world_after w (failed_files w path)
        (before ++ [ErrorSaving e; ModelTrained 60])
  end.

(** The object [self] after [self.model = m]. *)
Definition with_model (self : Classifier) (m : option Pipeline) : Classifier :=
  {| model_path := model_path self; model := m;
     categories := categories self |}.

Definition stub_fitted : Pipeline :=
  stub_pipeline Other [0.1; 0.1; 0.1; 0.1; 0.1; 0.5]%float.

Definition three_spaces : str := [space; space; space].

Definition failing_fit (X y : list str) : result Pipeline :=
  Raise (LibraryError 7).

(** The global classifier, if set, has a sound model; if not set, the file
    at the default path, if it loads, holds one. *)
Definition globals_ok (g : Globals) : Prop :=
  match fst g with
  | Some c => model_ok c
  | None =>
      forall p, files (snd g) default_model_path = Some (Pickle (Some p)) ->
                fitted_on y_train p
  end.

(** The rows of the categories table with the name [n]. *)
Definition rows_named (d : Db) (n : str) : list Category.t :=
  filter (fun c => eqb_str (Category.name c) n) (categories_table d).

(** The constraints the database keeps on the categories table: names and
    primary keys are unique, and keys are below the next key. *)
Definition categories_wf (d : Db) : Prop :=
  NoDup (map Category.name (categories_table d))
  /\ NoDup (map Category.pk (categories_table d))
  /\ Forall (fun c => Category.pk c < next_category_pk d)
       (categories_table d).

(** The table has exactly one row named [n], with the description [dsc]. *)
Definition entry_done (d : Db) (entry : str * str) : Prop :=
  exists c, rows_named d (fst entry) = [c]
            /\ Category.description c = Some (snd entry).

Definition empty_db : Db :=
  {| categories_table := []; complaints_table := [];
     next_category_pk := 1; next_complaint_pk := 1; now := 0 |}.

(** The database after [populate_categories] has run on the empty one. *)
Definition populated_db : Db :=
  match handle empty_db with
  | Found (_, _, _, d) => d
  | _ => empty_db
  end.

(** A complaint as the form hands it to the view. *)
Definition sample_complaint : Complaint.t :=
  {| Complaint.pk := None; Complaint.user := 0;
     Complaint.title := lit "No power";
     Complaint.description := power_outage;
     Complaint.image := None; Complaint.area := lit "Ward 4";
     Complaint.predicted_category := None;
     Complaint.final_category := None;
     Complaint.status := lit "pending"; Complaint.admin_notes := None;
     Complaint.created_at := 0; Complaint.updated_at := 0 |}.


(** A process whose classifier was loaded from a stale model file, over the
    populated database. *)
Definition stale_portal : Portal :=
  {| globals := (Some (built default_model_path (Some stale_pipeline)),
                 empty_world);
     db := populated_db; messages := [] |}.

(** * Properties *)

(** ** Characters and strings *)

Ltac char_cases :=
  unfold ascii_lower, alnum, keeps, isspace, is_az, is_AZ, is_digit, is_ascii,
    in_range, space in *;
  repeat match goal with
    | H : _ || _ = true |- _ => apply orb_true_iff in H; destruct H
    | H : _ && _ = true |- _ => apply andb_true_iff in H; destruct H
    | H : _ || _ = false |- _ => apply orb_false_iff in H; destruct H
    | H : (_ <=? _)%N = true |- _ => apply N.leb_le in H
    | H : (_ <=? _)%N = false |- _ => apply N.leb_gt in H
    | H : (_ <? _)%N = true |- _ => apply N.ltb_lt in H
    | H : (_ =? _)%N = true |- _ => apply N.eqb_eq in H
    | H : (_ =? _)%N = false |- _ => apply N.eqb_neq in H
    end;
  repeat match goal with
    | |- context [(?a <=? ?b)%N] => destruct (N.leb_spec a b); try lia
    | |- context [(?a <? ?b)%N] => destruct (N.ltb_spec a b); try lia
    | |- context [(?a =? ?b)%N] => destruct (N.eqb_spec a b); try lia
    end;
  simpl; try reflexivity; try lia; try discriminate.

Lemma alnum_not_space c : alnum c = true -> isspace c = false.
Proof. intros H. char_cases. Qed.

Lemma alnum_ascii c : alnum c = true -> is_ascii c = true.
Proof. intros H. char_cases. Qed.

Lemma alnum_lower c : alnum c = true -> ascii_lower c = c.
Proof. intros H. char_cases. Qed.

Lemma alnum_keeps c : alnum c = true -> keeps c = true.
Proof. intros H. unfold keeps. fold (alnum c). now rewrite H. Qed.

Lemma keeps_not_space_alnum c :
  keeps c = true -> isspace c = false -> alnum c = true.
Proof.
  unfold keeps. fold (alnum c). intros H Hs. rewrite Hs, orb_false_r in H.
  exact H.
Qed.

Lemma norm_char_fixed c :
  norm_char c ->
  is_ascii c = true /\ ascii_lower c = c /\ keeps c = true.
Proof.
  intros [H | ->].
  - auto using alnum_ascii, alnum_lower, alnum_keeps.
  - repeat split.
Qed.

Lemma lower_norm unicode_lower s :
  Forall norm_char s -> lower unicode_lower s = s.
Proof.
  intros H. unfold lower.
  assert (Ha : forallb is_ascii s = true).
  { apply forallb_forall. intros c Hc.
    rewrite Forall_forall in H. now apply norm_char_fixed, H. }
  rewrite Ha. induction H as [|c s Hc _ IH]; simpl.
  - reflexivity.
  - simpl in Ha. apply andb_true_iff in Ha as [_ Ha].
    f_equal; [now apply norm_char_fixed | now apply IH].
Qed.

Lemma re_sub_special_norm s : Forall norm_char s -> re_sub_special s = s.
Proof.
  induction 1 as [|c s Hc _ IH]; simpl; [reflexivity|].
  apply norm_char_fixed in Hc as (_ & _ & ->). now f_equal.
Qed.

Lemma re_sub_special_keeps s :
  Forall (fun c => keeps c = true) (re_sub_special s).
Proof.
  induction s as [|c s IH]; simpl; constructor; auto.
  destruct (keeps c) eqn:E; [exact E | reflexivity].
Qed.

(** ** [split] and [join] *)

Lemma split_from_word w : forall cur rest,
  Forall (fun c => isspace c = false) w ->
  split_from cur (w ++ rest) = split_from (rev w ++ cur) rest.
Proof.
  induction w as [|c w IH]; intros cur rest H; simpl; [reflexivity|].
  inversion H as [|? ? Hc Hw]; subst. rewrite Hc, IH by assumption.
  now rewrite <- app_assoc.
Qed.

Lemma split_from_Forall (P : char -> Prop) s : forall cur,
  Forall (fun c => isspace c = false /\ P c) cur ->
  Forall P s ->
  Forall (fun w => w <> [] /\ Forall (fun c => isspace c = false /\ P c) w)
    (split_from cur s).
Proof.
  induction s as [|c s IH]; intros cur Hcur Hs; simpl.
  - destruct cur as [|a cur]; constructor; [|constructor].
    split.
    + intros E. apply (f_equal (@List.length _)) in E.
      rewrite length_rev in E. discriminate.
    + now apply Forall_rev.
  - inversion Hs as [|? ? Hc Hs']; subst.
    destruct (isspace c) eqn:E.
    + destruct cur as [|a cur]; [now apply IH|].
      constructor; [|now apply IH].
      split.
      * intros E'. apply (f_equal (@List.length _)) in E'.
        rewrite length_rev in E'. discriminate.
      * now apply Forall_rev.
    + apply IH; [constructor; auto | assumption].
Qed.

Lemma split_words_ok s :
  Forall (fun c => keeps c = true) s -> Forall word_ok (split s).
Proof.
  intros H. unfold split.
  eapply Forall_impl;
    [| apply (split_from_Forall (fun c => keeps c = true)); [constructor | exact H]].
  intros w [Hne Hw]. split; [exact Hne|].
  eapply Forall_impl; [| exact Hw].
  intros c [Hs Hk]. now apply keeps_not_space_alnum.
Qed.

Lemma join_norm ws : Forall word_ok ws -> Forall norm_char (join [space] ws).
Proof.
  induction 1 as [|w ws [_ Hw] Hws IH]; simpl; [constructor|].
  assert (Hn : Forall norm_char w).
  { eapply Forall_impl; [| exact Hw]. intros c Hc. now left. }
  destruct ws as [|w' ws]; [exact Hn|].
  apply Forall_app; split; [exact Hn|].
  constructor; [now right | exact IH].
Qed.

Lemma split_join ws : Forall word_ok ws -> split (join [space] ws) = ws.
Proof.
  unfold split. induction 1 as [|w ws [Hne Hw] Hws IH]; simpl; [reflexivity|].
  assert (Hns : Forall (fun c => isspace c = false) w).
  { eapply Forall_impl; [| exact Hw]. exact alnum_not_space. }
  assert (Hrev : rev w <> []).
  { intros E. apply Hne. apply (f_equal (@rev _)) in E.
    now rewrite rev_involutive in E. }
  destruct ws as [|w' ws].
  - rewrite <- (app_nil_r w) at 1. rewrite split_from_word by assumption.
    rewrite app_nil_r. simpl. destruct (rev w) eqn:E; [contradiction|].
    now rewrite <- E, rev_involutive.
  - rewrite split_from_word by assumption. rewrite app_nil_r.
    change ([space] ++ join [space] (w' :: ws))
      with (space :: join [space] (w' :: ws)).
    cbn [split_from]. change (isspace space) with true. cbv iota.
    destruct (rev w) eqn:E; [contradiction|].
    rewrite <- E, rev_involutive. f_equal. exact IH.
Qed.

(** ** Normalisation *)

Lemma preprocess_text_norm unicode_lower text :
  exists ws, Forall word_ok ws /\
             preprocess_text unicode_lower text = join [space] ws.
Proof.
  exists (split (re_sub_special (lower unicode_lower text))). split.
  - apply split_words_ok, re_sub_special_keeps.
  - reflexivity.
Qed.

(** C8: normalising a text that is already normalised changes nothing,
    whatever the input string and whatever [str.lower] does outside ASCII. *)
Theorem preprocess_text_idempotent unicode_lower (s : str) :
  preprocess_text unicode_lower (preprocess_text unicode_lower s)
  = preprocess_text unicode_lower s.
Proof.
  destruct (preprocess_text_norm unicode_lower s) as (ws & Hws & ->).
  unfold preprocess_text.
  rewrite lower_norm by now apply join_norm.
  rewrite re_sub_special_norm by now apply join_norm.
  now rewrite split_join.
Qed.

(** ** Keyword matching *)

Lemma sum_ones_length {A} (l : list A) :
  list_sum (map (fun _ => 1) l) = List.length l.
Proof. induction l; simpl; auto. Qed.

Lemma keyword_score_length t kws :
  keyword_score t kws = List.length (filter (contains t) kws).
Proof. apply sum_ones_length. Qed.

Lemma keyword_scores_map t :
  keyword_scores t
  = map (fun '(category, keywords) => (category, keyword_score t keywords))
      CATEGORY_KEYWORDS.
Proof.
  unfold keyword_scores. generalize (keyword_score t). intros g.
  vm_compute. reflexivity.
Qed.

Lemma keyword_scores_keys t : dict_keys (keyword_scores t) = enumeration.
Proof.
  rewrite keyword_scores_map. unfold dict_keys. rewrite map_map.
  reflexivity.
Qed.

Lemma scores_get_count t category :
  In category enumeration ->
  scores_get (keyword_scores t) category = keyword_count t category.
Proof.
  intros H. unfold keyword_count. rewrite <- keyword_score_length.
  rewrite keyword_scores_map. generalize (keyword_score t). intros g.
  unfold enumeration in H. simpl in H.
  repeat (destruct H as [<- | H]; [vm_compute; reflexivity|]).
  contradiction.
Qed.

(** [max] with a key returns the first item whose key is maximal. *)
Lemma max_key_from_first {A} (f : A -> nat) : forall l best lt le,
  Forall (fun x => f x < f best) lt ->
  Forall (fun x => f x <= f best) le ->
  exists pre post,
    lt ++ best :: le ++ l = pre ++ max_key_from f best l :: post
    /\ Forall (fun x => f x < f (max_key_from f best l)) pre
    /\ Forall (fun x => f x <= f (max_key_from f best l)) post.
Proof.
  induction l as [|x l IH]; intros best lt le Hlt Hle; simpl.
  - exists lt, le. rewrite app_nil_r. auto.
  - destruct (f best <? f x) eqn:E.
    + apply Nat.ltb_lt in E.
      destruct (IH x (lt ++ best :: le) []) as (pre & post & Heq & Hpre & Hpost).
      * apply Forall_app; split.
        -- eapply Forall_impl; [| exact Hlt]. simpl. intros; lia.
        -- constructor; [exact E|].
           eapply Forall_impl; [| exact Hle]. simpl. intros; lia.
      * constructor.
      * exists pre, post. split; [|auto].
        rewrite <- Heq. simpl. now rewrite <- app_assoc.
    + apply Nat.ltb_ge in E.
      destruct (IH best lt (le ++ [x])) as (pre & post & Heq & Hpre & Hpost).
      * exact Hlt.
      * apply Forall_app; split; [exact Hle | constructor; [exact E | constructor]].
      * exists pre, post. split; [|auto].
        rewrite <- Heq. now rewrite <- app_assoc.
Qed.

Lemma py_max_key_first {A} (f : A -> nat) (l : list A) :
  l <> [] ->
  exists r pre post,
    py_max_key f l = Ok r /\ l = pre ++ r :: post
    /\ Forall (fun x => f x < f r) pre
    /\ Forall (fun x => f x <= f r) post.
Proof.
  destruct l as [|x l]; [contradiction|]. intros _.
  destruct (@max_key_from_first A f l x [] []) as (pre & post & Heq & Hpre & Hpost);
    try constructor.
  exists (max_key_from f x l), pre, post. simpl in Heq. auto.
Qed.

Section KeywordPath.

Variable unicode_lower : str -> str.

(** The keyword path returns a category: either the first category, in
    dictionary order, whose keyword count is maximal, when that count is
    positive, or [Other]. *)
Lemma keyword_based_classification_first text :
  exists r pre post,
    enumeration = pre ++ r :: post
    /\ Forall (fun c => keyword_count (lower unicode_lower text) c
                        < keyword_count (lower unicode_lower text) r) pre
    /\ Forall (fun c => keyword_count (lower unicode_lower text) c
                        <= keyword_count (lower unicode_lower text) r) post
    /\ keyword_based_classification unicode_lower text
       = Ok (if 0 <? keyword_count (lower unicode_lower text) r then r else Other).
Proof.
  unfold keyword_based_classification. cbv zeta.
  set (t := lower unicode_lower text).
  destruct (@py_max_key_first str (scores_get (keyword_scores t))
              (dict_keys (keyword_scores t)))
    as (r & pre & post & Hmax & Hsplit & Hpre & Hpost).
  { rewrite keyword_scores_keys. discriminate. }
  rewrite keyword_scores_keys in Hsplit.
  assert (Hin : forall c, In c (pre ++ r :: post) -> In c enumeration)
    by (intros c Hc; now rewrite Hsplit).
  assert (Hr : scores_get (keyword_scores t) r = keyword_count t r).
  { apply scores_get_count, Hin, in_elt. }
  exists r, pre, post. repeat split.
  - exact Hsplit.
  - rewrite Forall_forall in *. intros c Hc.
    rewrite <- Hr, <- scores_get_count; [now apply Hpre|].
    apply Hin, in_or_app. now left.
  - rewrite Forall_forall in *. intros c Hc.
    rewrite <- Hr, <- scores_get_count; [now apply Hpost|].
    apply Hin, in_or_app. right. now right.
  - rewrite Hmax. simpl. rewrite Hr.
    now destruct (0 <? keyword_count t r).
Qed.

End KeywordPath.

Lemma eqb_str_true a b : eqb_str a b = true <-> a = b.
Proof.
  unfold eqb_str. destruct (list_eq_dec N.eq_dec a b); split; auto; discriminate.
Qed.

Lemma dict_get_In {V} (d : dict V) k v :
  dict_get d k = Some v -> In (k, v) d.
Proof.
  induction d as [|[k' v'] d IH]; simpl; [discriminate|].
  destruct (eqb_str k' k) eqn:E.
  - apply eqb_str_true in E. intros [= ->]. left. now subst.
  - auto.
Qed.

Lemma keywords_of_all category k :
  In k (keywords_of category) -> In k all_keywords.
Proof.
  unfold keywords_of, all_keywords.
  destruct (dict_get CATEGORY_KEYWORDS category) as [kws|] eqn:E; [|contradiction].
  intros H. apply in_flat_map. exists (category, kws).
  split; [now apply dict_get_In | exact H].
Qed.

(** When exactly one keyword [k0] occurs in the text, a keyword list scores
    the number of times it lists [k0]. *)
Lemma filter_only_one t k0 kws :
  contains t k0 = true ->
  (forall k, In k kws -> k <> k0 -> contains t k = false) ->
  List.length (filter (contains t) kws) = count_occ str_eq_dec kws k0.
Proof.
  intros Hk0. induction kws as [|k kws IH]; intros H; simpl; [reflexivity|].
  destruct (str_eq_dec k k0) as [->|Hne].
  - rewrite Hk0. simpl. f_equal. apply IH. intros; apply H; simpl; auto.
  - rewrite (H k) by (simpl; auto). apply IH. intros; apply H; simpl; auto.
Qed.

Lemma pothole_counts t category :
  In category enumeration ->
  contains t pothole = true ->
  (forall k, In k all_keywords -> k <> pothole -> contains t k = false) ->
  keyword_count t category
  = if eqb_str category Road_Transport then 1 else 0.
Proof.
  intros Hc Hp Hno. unfold keyword_count.
  rewrite (filter_only_one t pothole) by
    (auto; intros k Hk; apply Hno; now apply (keywords_of_all category)).
  unfold enumeration in Hc. simpl in Hc.
  repeat (destruct Hc as [<- | Hc]; [vm_compute; reflexivity|]).
  contradiction.
Qed.

(** C5: the keyword path counts, per category, the keywords that occur in the
    lower-cased text and returns the first category, in dictionary order,
    whose count is maximal; when every count is zero it returns [Other]; a
    text in which "pothole" occurs and no other keyword does is classified
    [Road & Transport]. *)
Theorem keyword_based_classification_spec unicode_lower (text : str) :
  let n := keyword_count (lower unicode_lower text) in
  exists r,
    keyword_based_classification unicode_lower text = Ok r
    /\ ((forall c, In c enumeration -> n c = 0) -> r = Other)
    /\ ((exists c, In c enumeration /\ 0 < n c) ->
        exists pre post,
          enumeration = pre ++ r :: post
          /\ Forall (fun c => n c < n r) pre
          /\ Forall (fun c => n c <= n r) post)
    /\ (contains (lower unicode_lower text) pothole = true ->
        (forall k, In k all_keywords -> k <> pothole ->
                   contains (lower unicode_lower text) k = false) ->
        r = Road_Transport).
Proof.
  intros n.
  destruct (keyword_based_classification_first unicode_lower text)
    as (r & pre & post & Hsplit & Hpre & Hpost & Hres).
  fold n in Hpre, Hpost, Hres.
  assert (Hmax : forall c, In c enumeration -> n c <= n r).
  { intros c Hc. rewrite Hsplit in Hc. rewrite Forall_forall in Hpre, Hpost.
    apply in_app_or in Hc as [Hc | [<- | Hc]];
      [apply Nat.lt_le_incl; auto | lia | auto]. }
  assert (Hr : In r enumeration) by (rewrite Hsplit; apply in_elt).
  eexists. split; [exact Hres|]. split; [|split].
  - intros Hzero. rewrite (Hzero r Hr). reflexivity.
  - intros (c & Hc & Hpos). specialize (Hmax c Hc).
    assert (E : (0 <? n r) = true) by (apply Nat.ltb_lt; lia).
    rewrite E. exists pre, post. auto.
  - intros Hp Hno.
    assert (Hn : forall c, In c enumeration ->
                 n c = if eqb_str c Road_Transport then 1 else 0)
      by (intros c Hc; now apply pothole_counts).
    assert (Hroad : n Road_Transport = 1)
      by (rewrite Hn; [reflexivity | unfold enumeration; simpl; auto]).
    assert (Hle := Hmax Road_Transport).
    rewrite Hroad in Hle. specialize (Hle ltac:(unfold enumeration; simpl; auto)).
    assert (E : (0 <? n r) = true) by (apply Nat.ltb_lt; lia).
    rewrite E. rewrite (Hn r Hr) in Hle.
    destruct (eqb_str r Road_Transport) eqn:Er; [now apply eqb_str_true | lia].
Qed.

Lemma forallb_In {A} (p : A -> bool) l :
  forallb p l = true -> forall x, In x l -> p x = true.
Proof. intros H x Hx. rewrite forallb_forall in H. auto. Qed.

(** The text "pothole" is classified [Road & Transport] by the keyword path. *)
Lemma keyword_based_classification_spec_witness :
  keyword_based_classification sample_lower pothole = Ok Road_Transport.
Proof.
  destruct (keyword_based_classification_spec sample_lower pothole)
    as (r & Hr & _ & _ & Hp).
  rewrite Hr. f_equal. apply Hp.
  - vm_compute. reflexivity.
  - intros k Hk Hne.
    assert (H : (eqb_str k pothole
                 || negb (contains (lower sample_lower pothole) k)) = true).
    { revert k Hk Hne. intros k Hk _. revert k Hk. apply forallb_In.
      vm_compute. reflexivity. }
    apply orb_true_iff in H as [H | H].
    + apply eqb_str_true in H. contradiction.
    + now apply negb_true_iff in H.
Defined.

(** ** The keyword "Speaker" *)

Lemma startswith_In t : forall k c,
  startswith t k = true -> In c k -> In c t.
Proof.
  induction t as [|b t IH]; intros [|a k] c H Hc; simpl in *;
    try contradiction; try discriminate.
  apply andb_true_iff in H as [Hab H]. apply N.eqb_eq in Hab. subst b.
  destruct Hc as [-> | Hc]; [now left | right; eauto].
Qed.

Lemma contains_In t : forall k c,
  contains t k = true -> In c k -> In c t.
Proof.
  induction t as [|b t IH]; intros k c H Hc; simpl in H;
    apply orb_true_iff in H as [H | H].
  - eauto using startswith_In.
  - discriminate.
  - eauto using startswith_In.
  - right. eauto.
Qed.

Lemma ascii_lower_not_upper c : is_AZ (ascii_lower c) = false.
Proof.
  unfold ascii_lower. destruct (is_AZ c) eqn:E; [|exact E]. char_cases.
Qed.

Section SpeakerKeyword.

Variable unicode_lower : str -> str.

(** Lower-casing leaves no ASCII capital letter in a string. *)
Hypothesis unicode_lower_no_capital :
  forall s c, In c (unicode_lower s) -> is_AZ c = false.

Lemma lower_no_capital s c : In c (lower unicode_lower s) -> is_AZ c = false.
Proof.
  unfold lower. destruct (forallb is_ascii s).
  - intros H. apply in_map_iff in H as (c0 & <- & _).
    apply ascii_lower_not_upper.
  - apply unicode_lower_no_capital.
Qed.

Lemma Speaker_never_matches text :
  contains (lower unicode_lower text) Speaker = false.
Proof.
  destruct (contains (lower unicode_lower text) Speaker) eqn:E; [|reflexivity].
  assert (H : In 83%N (lower unicode_lower text)).
  { eapply contains_In; [exact E|]. vm_compute. auto. }
  apply lower_no_capital in H. discriminate.
Qed.

(** C9: "Speaker" never occurs in a lower-cased text, so the score the
    keyword path gives [Noise] is the number of its other fifteen keywords
    that occur in the text. *)
Theorem Speaker_never_scores (text : str) :
  contains (lower unicode_lower text) Speaker = false
  /\ In Speaker (keywords_of Noise)
  /\ List.length noise_keywords_lowercase = 15
  /\ scores_get (keyword_scores (lower unicode_lower text)) Noise
     = List.length
         (filter (contains (lower unicode_lower text)) noise_keywords_lowercase).
Proof.
  split; [apply Speaker_never_matches|].
  split; [vm_compute; auto 10|]. split; [reflexivity|].
  rewrite scores_get_count by (unfold enumeration; simpl; auto 10).
  unfold keyword_count.
  change (keywords_of Noise)
    with (map lit ["noise"; "sound"; "loud"; "disturbance"]%string
          ++ Speaker :: map lit
               [ "music"; "construction"; "pollution"; "volume"; "shouting";
                 "party"; "horn"; "siren"; "barking"; "disturb";
                 "quiet" ]%string).
  change noise_keywords_lowercase
    with (map lit ["noise"; "sound"; "loud"; "disturbance"]%string
          ++ map lit
               [ "music"; "construction"; "pollution"; "volume"; "shouting";
                 "party"; "horn"; "siren"; "barking"; "disturb";
                 "quiet" ]%string).
  rewrite !filter_app. cbn [filter]. rewrite Speaker_never_matches.
  reflexivity.
Qed.

End SpeakerKeyword.

Lemma sample_lower_no_capital s c : In c (sample_lower s) -> is_AZ c = false.
Proof.
  unfold sample_lower. intros H. apply in_map_iff in H as (c0 & <- & _).
  apply ascii_lower_not_upper.
Qed.

(** A text whose only relevant word is "speaker" scores zero for [Noise]. *)
Lemma Speaker_never_scores_witness :
  scores_get (keyword_scores (lower sample_lower (lit "speaker"))) Noise = 0.
Proof.
  destruct (Speaker_never_scores sample_lower sample_lower_no_capital
              (lit "speaker")) as (_ & _ & _ & H).
  rewrite H. vm_compute. reflexivity.
Defined.

(** ** Prediction *)

Lemma leb_not_ltb (x y : float) :
  (x <=? y)%float = true -> (y <? x)%float = false.
Proof.
  rewrite leb_spec, ltb_spec. unfold SFleb, SFltb.
  destruct (Prim2SF x) as [sx | sx | | sx mx ex],
           (Prim2SF y) as [sy | sy | | sy my ey];
    simpl; try discriminate; try reflexivity;
    try (destruct sx; simpl; try discriminate; reflexivity);
    try (destruct sy; simpl; try discriminate; reflexivity);
    try (destruct sx, sy; simpl; try discriminate; reflexivity).
  destruct sx, sy; simpl; try discriminate; try reflexivity.
  - rewrite (Z.compare_antisym ex ey).
    destruct (ex ?= ey)%Z; simpl; try discriminate; try reflexivity.
    rewrite !Pos.compare_cont_spec. simpl.
    rewrite (Pos.compare_antisym mx my).
    destruct (mx ?= my)%positive; simpl; try discriminate; reflexivity.
  - rewrite (Z.compare_antisym ex ey).
    destruct (ex ?= ey)%Z; simpl; try discriminate; try reflexivity.
    rewrite !Pos.compare_cont_spec. simpl.
    rewrite (Pos.compare_antisym mx my).
    destruct (mx ?= my)%positive; simpl; try discriminate; reflexivity.
Qed.

Lemma max_from_In : forall l best, In (max_from best l) (best :: l).
Proof.
  induction l as [|x l IH]; intros best; simpl; [auto|].
  destruct (IH (if (best <? x)%float then x else best)) as [H | H].
  - destruct (best <? x)%float; rewrite <- H; auto.
  - auto.
Qed.

Lemma py_max_In l c : py_max l = Ok c -> In c l.
Proof.
  destruct l as [|x l]; simpl; [discriminate|].
  intros [= <-]. apply max_from_In.
Qed.

Lemma item0_In {A} (l : list A) x : item0 l = Ok x -> In x l.
Proof. destruct l; simpl; [discriminate|]. intros [= ->]. now left. Qed.

(** When the statistical step returns, the label and the confidence come
    from the pipeline's answers. *)
Lemma statistical_inv self processed prediction confidence :
  statistical self processed = Ok (prediction, confidence) ->
  exists m labels rows row,
    model self = Some m
    /\ pl_predict m [processed] = Ok labels /\ In prediction labels
    /\ pl_predict_proba m [processed] = Ok rows /\ In row rows
    /\ In confidence row.
Proof.
  unfold statistical, call_model.
  destruct (model self) as [m|]; simpl; [|discriminate].
  destruct (pl_predict m [processed]) as [labels|] eqn:E1; simpl; [|discriminate].
  destruct (item0 labels) as [l|] eqn:E2; simpl; [|discriminate].
  destruct (pl_predict_proba m [processed]) as [rows|] eqn:E3; simpl; [|discriminate].
  destruct (item0 rows) as [row|] eqn:E4; simpl; [|discriminate].
  destruct (py_max row) as [c|] eqn:E5; simpl; [|discriminate].
  intros [= <- <-]. exists m, labels, rows, row.
  auto 10 using item0_In, py_max_In.
Qed.

Lemma y_train_enumeration l : In l y_train -> In l enumeration.
Proof.
  intros H.
  assert (E : existsb (eqb_str l) enumeration = true).
  { revert l H. apply forallb_In. vm_compute. reflexivity. }
  apply existsb_exists in E as (x & Hx & E).
  apply eqb_str_true in E. now subst.
Qed.

Section Predict.

Variable unicode_lower : str -> str.

Lemma keyword_based_classification_total text :
  exists k, keyword_based_classification unicode_lower text = Ok k
            /\ In k enumeration.
Proof.
  destruct (keyword_based_classification_first unicode_lower text)
    as (r & pre & post & Hsplit & _ & _ & Hres).
  eexists. split; [exact Hres|].
  destruct (0 <? _).
  - rewrite Hsplit. apply in_elt.
  - unfold enumeration. simpl. auto 10.
Qed.

(** The [try] block is the statistical step followed by the threshold test. *)
Lemma predict_try_statistical self text processed ukf :
  predict_try unicode_lower self text processed ukf
  = rbind (statistical self processed)
      (fun '(prediction, confidence) =>
         if ukf && (confidence <? 0.4)%float
         then rbind (keyword_based_classification unicode_lower text)
                (fun keyword_prediction => Ok (keyword_prediction, 0.6%float))
         else Ok (prediction, confidence)).
Proof.
  unfold predict_try, statistical.
  destruct (call_model self (fun m => pl_predict m [processed])); simpl; auto.
  destruct (item0 a); simpl; auto.
  destruct (call_model self (fun m => pl_predict_proba m [processed])); simpl; auto.
  destruct (item0 a1); simpl; auto.
  destruct (py_max a2); simpl; auto.
Qed.

(** [predict] on an input that passes the short-input check. *)
Lemma predict_long_enough self w text ukf :
  long_enough text ->
  predict unicode_lower text ukf (self, w)
  = match predict_try unicode_lower self text
            (preprocess_text unicode_lower text) ukf with
    | Ok r => (Ok r, (self, w))
    | Raise e =>
        match stdout_error w (ErrorInPrediction e) with
        | Some e' => (Raise e', (self, w))
        | None =>
            match keyword_based_classification unicode_lower text with
            | Ok k =>
                (Ok (k, 0.5%float), (self, printed w [ErrorInPrediction e]))
            | Raise e' => (Raise e', (self, printed w [ErrorInPrediction e]))
            end
        end
    end.
Proof.
  intros [Hne Hlen]. unfold predict.
  destruct text as [|c text]; [contradiction|].
  apply Nat.ltb_ge in Hlen. rewrite Hlen.
  unfold bind, get_self, try_except, lift, print, ret, printed. simpl.
  destruct (predict_try _ _ _ _ _); [reflexivity|].
  destruct (stdout_error w (ErrorInPrediction e)); [reflexivity|].
  destruct (keyword_based_classification _ _); reflexivity.
Qed.

End Predict.

Lemma filter_lstrip p s :
  (forall c, isspace c = true -> p c = false) ->
  filter p (lstrip s) = filter p s.
Proof.
  intros Hp. induction s as [|c s IH]; simpl; [reflexivity|].
  destruct (isspace c) eqn:E; [|reflexivity].
  now rewrite (Hp c E).
Qed.

(** Trimming keeps every character that is not whitespace. *)
Lemma strip_keeps_non_whitespace s :
  List.length (filter (fun c => negb (isspace c)) s) <= List.length (strip s).
Proof.
  set (p := fun c => negb (isspace c)).
  assert (Hp : forall c, isspace c = true -> p c = false)
    by (intros c E; unfold p; now rewrite E).
  assert (E : filter p (strip s) = filter p s).
  { unfold strip, rstrip.
    rewrite <- (rev_involutive (filter p s)).
    rewrite <- (filter_lstrip p s Hp).
    rewrite <- (filter_rev p (lstrip s)).
    rewrite <- (filter_lstrip p (rev (lstrip s)) Hp).
    rewrite filter_rev. reflexivity. }
  rewrite <- E. apply filter_length_le.
Qed.

Section PredictClaims.

Variable unicode_lower : str -> str.

Lemma predict_short self w text ukf :
  text = [] \/ List.length (strip text) < 10 ->
  predict unicode_lower text ukf (self, w) = (Ok (Other, 0.5%float), (self, w)).
Proof.
  intros H. unfold predict. destruct text as [|c text']; [reflexivity|].
  destruct H as [H | H]; [discriminate|].
  apply Nat.ltb_lt in H. rewrite H. reflexivity.
Qed.

(** [predict] on an input that passes the short-input check, by the outcome
    of the statistical step and of the [print] in the handler. *)
Lemma predict_by_statistical self w text ukf :
  long_enough text ->
  exists k,
    keyword_based_classification unicode_lower text = Ok k
    /\ In k enumeration
    /\ predict unicode_lower text ukf (self, w)
       = match statistical self (preprocess_text unicode_lower text) with
         | Ok (prediction, confidence) =>
             if ukf && (confidence <? 0.4)%float
             then (Ok (k, 0.6%float), (self, w))
             else (Ok (prediction, confidence), (self, w))
         | Raise e =>
             match stdout_error w (ErrorInPrediction e) with
             | None =>
                 (Ok (k, 0.5%float), (self, printed w [ErrorInPrediction e]))
             | Some e' => (Raise e', (self, w))
             end
         end.
Proof.
  intros Hlong.
  destruct (keyword_based_classification_total unicode_lower text)
    as (k & Hk & Hin).
  exists k. split; [exact Hk|]. split; [exact Hin|].
  rewrite (predict_long_enough unicode_lower self w text ukf Hlong).
  rewrite predict_try_statistical.
  destruct (statistical self _) as [[p c]|e]; simpl.
  - destruct (ukf && _); [rewrite Hk|]; reflexivity.
  - rewrite Hk. destruct (stdout_error w _); reflexivity.
Qed.

Lemma short_or_long (text : str) :
  (text = [] \/ List.length (strip text) < 10) \/ long_enough text.
Proof.
  destruct text as [|c text'] eqn:E; [auto|]. rewrite <- E.
  destruct (Nat.lt_ge_cases (List.length (strip text)) 10) as [Hs | Hl];
    [auto|].
  right. split; [subst; discriminate | exact Hl].
Qed.

(** [predict] returns a pair when the statistical model keeps its contract
    and stdout takes the error line of a failed statistical step. *)
Lemma predict_sound self w text ukf :
  model_ok self ->
  (forall e,
     statistical self (preprocess_text unicode_lower text) = Raise e ->
     stdout_error w (ErrorInPrediction e) = None) ->
  exists label confidence w',
    predict unicode_lower text ukf (self, w)
    = (Ok (label, confidence), (self, w'))
    /\ In label enumeration
    /\ in_unit_interval confidence.
Proof.
  intros Hok Hprint.
  assert (Hother : In Other enumeration) by (unfold enumeration; simpl; auto 10).
  assert (H05 : in_unit_interval 0.5%float) by (split; reflexivity).
  assert (H06 : in_unit_interval 0.6%float) by (split; reflexivity).
  destruct (short_or_long text) as [Hs | Hl].
  - rewrite predict_short by exact Hs. eauto 10.
  - destruct (predict_by_statistical self w text ukf Hl)
      as (k & _ & Hkin & ->).
    destruct (statistical self _) as [[p c]|e] eqn:Hstat;
      [|rewrite (Hprint e eq_refl); eauto 10].
    destruct (ukf && _); [eauto 10|].
    apply statistical_inv in Hstat
      as (m & labels & rows & row & Hm & Hp & Hpin & Hr & Hrin & Hc).
    unfold model_ok in Hok. rewrite Hm in Hok. destruct Hok as [Hlab Hprob].
    do 3 eexists. split; [reflexivity|]. split.
    + eapply y_train_enumeration, Hlab; eauto.
    + eapply Hprob; eauto.
Qed.

(** C2: on the empty string, and on a string that is shorter than ten
    characters once trimmed, [predict] returns [("Other", 0.5)] and leaves
    the object and the world as they were, whatever the model is. *)
Theorem predict_short_input (self : Classifier) (w : World) (text : str)
    (use_keywords_fallback : bool) :
  text = [] \/ List.length (strip text) < 10 ->
  predict unicode_lower text use_keywords_fallback (self, w)
  = (Ok (Other, 0.5%float), (self, w)).
Proof.
  intros H. unfold predict. destruct text as [|c text']; [reflexivity|].
  destruct H as [H | H]; [discriminate|].
  apply Nat.ltb_lt in H. rewrite H. reflexivity.
Qed.

(** C3: on an input that passes the short-input check and on which the
    statistical step returns a label and a largest probability, [predict]
    with the default [use_keywords_fallback=True] returns the keyword
    classification of the original text with confidence 0.6 when the
    probability is below 0.4, and the label with the probability when the
    probability is 0.4 or more. *)
Theorem predict_threshold (self : Classifier) (w : World) (text : str)
    (prediction : str) (confidence : float) :
  long_enough text ->
  statistical self (preprocess_text unicode_lower text)
  = Ok (prediction, confidence) ->
  ((confidence <? 0.4)%float = true ->
   exists k,
     keyword_based_classification unicode_lower text = Ok k
     /\ predict unicode_lower text true (self, w)
        = (Ok (k, 0.6%float), (self, w)))
  /\ ((0.4 <=? confidence)%float = true ->
      predict unicode_lower text true (self, w)
      = (Ok (prediction, confidence), (self, w))).
Proof.
  intros Hlong Hstat.
  destruct (predict_by_statistical self w text true Hlong) as (k & Hk & _ & ->).
  rewrite Hstat. simpl. split.
  - intros Hlt. rewrite Hlt. eauto.
  - intros Hge. now rewrite (leb_not_ltb _ _ Hge).
Qed.

(** C4, where the code departs from it: the handler of [predict] prints
    before it falls back.  With a statistical step that raises and a stdout
    that cannot take the error line, [predict] raises what [print] raised. *)
Theorem predict_handler_print_raises :
  statistical (classifier_with (Some (broken_pipeline (LibraryError 1))))
    (preprocess_text sample_lower big_pothole_here)
  = Raise (LibraryError 1)
  /\ predict sample_lower big_pothole_here true
       (classifier_with (Some (broken_pipeline (LibraryError 1))),
        unencodable_world)
     = (Raise UnicodeEncodeError,
        (classifier_with (Some (broken_pipeline (LibraryError 1))),
         unencodable_world)).
Proof. split; reflexivity. Qed.

(** C1, as the code has it: for a classifier without a model or with one
    fitted on the training labels, [predict] returns a pair of a label of
    the enumeration and a confidence between 0 and 1 on the short-circuit,
    statistical and low-confidence paths, and on the exception path when
    stdout takes the error line. *)
Theorem predict_label_and_confidence (self : Classifier) (w : World)
    (text : str) (use_keywords_fallback : bool) :
  model_ok self ->
  (forall e,
     statistical self (preprocess_text unicode_lower text) = Raise e ->
     stdout_error w (ErrorInPrediction e) = None) ->
  exists label confidence s',
    predict unicode_lower text use_keywords_fallback (self, w)
    = (Ok (label, confidence), s')
    /\ In label enumeration
    /\ in_unit_interval confidence.
Proof.
  intros Hok Hprint.
  assert (Hother : In Other enumeration) by (unfold enumeration; simpl; auto 10).
  assert (H05 : in_unit_interval 0.5%float) by (split; reflexivity).
  assert (H06 : in_unit_interval 0.6%float) by (split; reflexivity).
  destruct (short_or_long text) as [Hs | Hl].
  - rewrite predict_short by exact Hs. eauto 10.
  - destruct (predict_by_statistical self w text use_keywords_fallback Hl)
      as (k & _ & Hkin & ->).
    destruct (statistical self _) as [[p c]|e] eqn:Hstat;
      [|rewrite (Hprint e eq_refl); eauto 10].
    destruct (use_keywords_fallback && _); [eauto 10|].
    apply statistical_inv in Hstat
      as (m & labels & rows & row & Hm & Hp & Hpin & Hr & Hrin & Hc).
    unfold model_ok in Hok. rewrite Hm in Hok. destruct Hok as [Hlab Hprob].
    do 3 eexists. split; [reflexivity|]. split.
    + eapply y_train_enumeration, Hlab; eauto.
    + eapply Hprob; eauto.
Qed.

(** C10: the short-input check reads the raw text.  A text with ten or more
    characters that are not whitespace, which normalisation reduces to the
    empty string, is not answered by the check: [predict] runs the
    statistical step on the empty string and returns its label and
    probability when that is 0.4 or more, the keyword classification of the
    raw text with confidence 0.6 when it is below 0.4, and, when the step
    raises, the keyword classification with confidence 0.5 once the error
    line is printed, or what [print] raised. *)
Theorem predict_checks_raw_input (self : Classifier) (w : World) (text : str) :
  10 <= List.length (filter (fun c => negb (isspace c)) text) ->
  preprocess_text unicode_lower text = [] ->
  long_enough text
  /\ exists k,
       keyword_based_classification unicode_lower text = Ok k
       /\ predict unicode_lower text true (self, w)
          = match statistical self [] with
            | Ok (prediction, confidence) =>
                if (confidence <? 0.4)%float
                then (Ok (k, 0.6%float), (self, w))
                else (Ok (prediction, confidence), (self, w))
            | Raise e =>
                match stdout_error w (ErrorInPrediction e) with
                | None =>
                    (Ok (k, 0.5%float),
                     (self, printed w [ErrorInPrediction e]))
                | Some e' => (Raise e', (self, w))
                end
            end.
Proof.
  intros Hlen Hempty.
  assert (Hlong : long_enough text).
  { split.
    - intros E. rewrite E in Hlen. simpl in Hlen. lia.
    - etransitivity; [exact Hlen | apply strip_keeps_non_whitespace]. }
  split; [exact Hlong|].
  destruct (predict_by_statistical self w text true Hlong) as (k & Hk & _ & ->).
  rewrite Hempty. exists k. split; [exact Hk | reflexivity].
Qed.

End PredictClaims.

(** ** Prediction on concrete inputs *)

Lemma stub_pipeline_fitted label row :
  In label y_train ->
  Forall in_unit_interval row ->
  fitted_on y_train (stub_pipeline label row).
Proof.
  intros Hl Hrow. split; simpl.
  - intros X labels l [= <-] H. apply in_map_iff in H as (_ & <- & _). exact Hl.
  - intros X rows r c [= <-] H Hc. apply in_map_iff in H as (_ & <- & _).
    rewrite Forall_forall in Hrow. auto.
Qed.

Lemma predict_label_and_confidence_witness :
  exists label confidence s',
    predict sample_lower power_outage true
      (classifier_with (Some (stub_pipeline Electricity [0.7; 0.3]%float)),
       empty_world)
    = (Ok (label, confidence), s')
    /\ In label enumeration
    /\ in_unit_interval confidence.
Proof.
  apply (predict_label_and_confidence sample_lower).
  - unfold model_ok, classifier_with. simpl.
    apply stub_pipeline_fitted.
    + vm_compute. auto.
    + repeat constructor.
  - reflexivity.
Defined.

(** A model file left by another version of the application holds a
    pipeline with other labels.  The constructor takes it as the model and
    [predict] passes on its label and its number. *)
Lemma predict_label_and_confidence_counterexample :
  fst (ComplaintClassifier sample_lower stub_fit None
         (world_with default_model_path (Pickle (Some stale_pipeline))))
  = Ok (built default_model_path (Some stale_pipeline))
  /\ fst (predict sample_lower big_pothole_here true
            (built default_model_path (Some stale_pipeline), empty_world))
     = Ok (lit "Sanitation", 1.5%float)
  /\ ~ In (lit "Sanitation") enumeration
  /\ ~ in_unit_interval 1.5%float.
Proof.
  split; [reflexivity|]. split; [reflexivity|]. split.
  - unfold enumeration. simpl. intros H.
    repeat (destruct H as [H|H]; [vm_compute in H; discriminate|]).
    exact H.
  - intros [_ H]. vm_compute in H. discriminate.
Qed.

Lemma predict_short_input_witness :
  predict sample_lower pothole true
    (classifier_with (Some (stub_pipeline Noise [0.9%float])), empty_world)
  = (Ok (Other, 0.5%float),
     (classifier_with (Some (stub_pipeline Noise [0.9%float])), empty_world)).
Proof.
  apply (predict_short_input sample_lower).
  right. vm_compute. repeat constructor.
Defined.

Lemma big_pothole_here_long : long_enough big_pothole_here.
Proof. split; [discriminate | vm_compute; repeat constructor]. Qed.

(** A stub model that is exactly 0.4 sure is believed; one that is 0.39999
    sure is overruled by the keywords. *)
Lemma predict_threshold_witness :
  predict sample_lower big_pothole_here true
    (classifier_with (Some (stub_pipeline Noise [0.4%float])), empty_world)
  = (Ok (Noise, 0.4%float),
     (classifier_with (Some (stub_pipeline Noise [0.4%float])), empty_world))
  /\ predict sample_lower big_pothole_here true
       (classifier_with (Some (stub_pipeline Noise [0.39999%float])),
        empty_world)
     = (Ok (Road_Transport, 0.6%float),
        (classifier_with (Some (stub_pipeline Noise [0.39999%float])),
         empty_world)).
Proof.
  split.
  - apply (predict_threshold sample_lower _ empty_world big_pothole_here
             Noise 0.4%float big_pothole_here_long); reflexivity.
  - destruct (predict_threshold sample_lower
                (classifier_with (Some (stub_pipeline Noise [0.39999%float])))
                empty_world big_pothole_here Noise 0.39999%float
                big_pothole_here_long eq_refl) as [H _].
    destruct (H eq_refl) as (k & Hk & ->).
    vm_compute in Hk. injection Hk as <-. reflexivity.
Defined.

(** Ten exclamation marks are normalised to the empty string, yet the model
    is asked and believed. *)
Lemma predict_checks_raw_input_witness :
  preprocess_text sample_lower ten_marks = []
  /\ predict sample_lower ten_marks true
       (classifier_with (Some (stub_pipeline Noise [0.9%float])), empty_world)
     = (Ok (Noise, 0.9%float),
        (classifier_with (Some (stub_pipeline Noise [0.9%float])),
         empty_world)).
Proof.
  split; [reflexivity|].
  destruct (predict_checks_raw_input sample_lower
              (classifier_with (Some (stub_pipeline Noise [0.9%float])))
              empty_world ten_marks) as (_ & k & _ & ->).
  - vm_compute. repeat constructor.
  - reflexivity.
  - reflexivity.
Defined.

(** ** Construction, loading, training and saving *)

(** Case analysis on what the world answers. *)
Ltac world_cases :=
  repeat match goal with
    | |- context [stdout_error ?w ?l] => destruct (stdout_error w l) eqn:?
    | |- context [dump_error ?w ?p] => destruct (dump_error w p) eqn:?
    | |- context [dump_leaves ?w ?p] => destruct (dump_leaves w p) eqn:?
    end.

Lemma world_after_nil w : world_after w (files w) [] = w.
Proof.
  destruct w. unfold world_after, write_stdout, set_files. simpl.
  now rewrite app_nil_r.
Qed.

Lemma world_after_stdout_ok w fs lines :
  stdout_ok w -> stdout_ok (world_after w fs lines).
Proof. intros H l. apply H. Qed.

Section Lifecycle.

Variable unicode_lower : str -> str.
Variable fit : list str -> list str -> result Pipeline.

Lemma X_train_length : List.length (X_train unicode_lower) = 60.
Proof. vm_compute. reflexivity. Qed.

(** A training run whose fit succeeds, on a stdout that takes every line,
    sets the fitted model, tries to save it and returns, whether or not the
    save worked. *)
Lemma train_run self w fitted lines :
  stdout_ok w ->
  fit (X_train unicode_lower) y_train = Ok fitted ->
  train unicode_lower fit (self, world_after w (files w) lines)
  = (Ok tt,
     (with_model self (Some fitted),
      trained_world w (model_path self) fitted lines)).
Proof.
  intros Hq Hfit.
  unfold train, save_model, trained_world, failed_files, world_after,
    with_model, with_file.
  unfold bind, try_except, set_model, lift, get_self, joblib_dump, print.
  rewrite Hfit. cbn -[X_train].
  destruct (dump_error w (model_path self)) as [e|];
    [destruct (dump_leaves w (model_path self))|];
    cbn -[X_train]; rewrite ?Hq; cbn -[X_train]; rewrite ?Hq;
    cbn -[X_train]; rewrite ?Hq; unfold write_stdout, set_files;
    cbn -[X_train]; rewrite X_train_length, <- !app_assoc; reflexivity.
Qed.

(** Whatever the save and the prints do, a training run whose fit succeeds
    leaves the fitted pipeline as the model. *)
Lemma train_keeps_fitted self w fitted :
  fit (X_train unicode_lower) y_train = Ok fitted ->
  exists r w',
    train unicode_lower fit (self, w)
    = (r, (with_model self (Some fitted), w')).
Proof.
  intros Hfit.
  unfold train, save_model, with_model.
  unfold bind, try_except, set_model, lift, get_self, joblib_dump, print.
  rewrite Hfit. cbn -[X_train]. world_cases; cbn -[X_train];
    world_cases; cbn -[X_train]; world_cases; eauto.
Qed.

(** A training run whose fit raises lets the exception through. *)
Lemma train_fit_raises self w e :
  fit (X_train unicode_lower) y_train = Raise e ->
  train unicode_lower fit (self, w)
  = (Raise e, (with_model self (Some unfitted), w)).
Proof.
  intros Hfit. unfold train, bind, set_model, lift, with_model.
  rewrite Hfit. reflexivity.
Qed.

(** The object [__init__] starts from. *)
Lemma init_unfold path self0 w :
  __init__ unicode_lower fit path (self0, w)
  = match files w (effective_path path) with
    | Some _ =>
        load_model unicode_lower fit (built (effective_path path) None, w)
    | None => train unicode_lower fit (built (effective_path path) None, w)
    end.
Proof.
  unfold __init__, bind, os_path_exists, built. fold (effective_path path).
  cbn [model_path]. destruct (files w (effective_path path)); reflexivity.
Qed.

Lemma load_model_run self w :
  stdout_ok w ->
  load_model unicode_lower fit (self, w)
  = match files w (model_path self) with
    | Some (Pickle obj) =>
        (Ok tt,
         (with_model self obj,
          world_after w (files w) [ModelLoaded (model_path self)]))
    | Some (Corrupt e) =>
        train unicode_lower fit (self, world_after w (files w) [ErrorLoading e])
    | None =>
        train unicode_lower fit
          (self, world_after w (files w) [ErrorLoading FileNotFoundError])
    end.
Proof.
  intros Hq. unfold load_model, try_except.
  unfold bind at 1 2 3 4. unfold get_self, joblib_load, set_model, print.
  cbn [fst model_path].
  destruct (files w (model_path self)) as [[obj|e]|]; cbn;
    rewrite ?Hq; destruct w; reflexivity.
Qed.

Lemma train_sets_model self w fitted :
  stdout_ok w ->
  fit (X_train unicode_lower) y_train = Ok fitted ->
  train unicode_lower fit (self, w)
  = (Ok tt,
     (with_model self (Some fitted),
      trained_world w (model_path self) fitted [])).
Proof.
  intros Hq Hfit. rewrite <- (train_run self w fitted [] Hq Hfit).
  now rewrite world_after_nil.
Qed.

End Lifecycle.

(** C6, where the code departs from it: the lines about the model are
    printed inside the [try] blocks and in their handlers.  On a stdout that
    cannot encode them, with no model file, construction trains and writes
    the model file, the line that reports the save raises, the handler's
    line raises too, and that exception leaves the constructor. *)
Theorem construction_print_raises :
  fst (__init__ sample_lower stub_fit None (new_object, unencodable_world))
  = Raise UnicodeEncodeError
  /\ fst (ComplaintClassifier sample_lower stub_fit None unencodable_world)
     = Raise UnicodeEncodeError
  /\ files (snd (ComplaintClassifier sample_lower stub_fit None
                   unencodable_world)) default_model_path
     = Some (Pickle (Some stub_fitted)).
Proof. repeat split; vm_compute; reflexivity. Qed.

(** The category enumeration is shared by the training bank, the keyword
    dictionary and both paths of [predict]. *)
Lemma enumeration_y_train l : In l enumeration -> In l y_train.
Proof.
  intros H.
  assert (E : existsb (eqb_str l) y_train = true).
  { revert l H. apply forallb_In. vm_compute. reflexivity. }
  apply existsb_exists in E as (x & Hx & E).
  apply eqb_str_true in E. now subst.
Qed.

(** C7: the keys of the training bank and of the keyword dictionary are the
    same enumeration; the labels the model is fitted on are exactly these;
    every category has a training example; a training run leaves the
    pipeline fitted on these labels as the model; and the keyword path and
    the statistical path of a model fitted on them return labels of the
    enumeration. *)
Theorem label_sets_agree :
  dict_keys TRAINING_DATA = enumeration
  /\ dict_keys CATEGORY_KEYWORDS = enumeration
  /\ (forall l, In l y_train <-> In l enumeration)
  /\ Forall (fun entry => snd entry <> []) TRAINING_DATA
  /\ (forall unicode_lower fit fitted self w,
        fit (X_train unicode_lower) y_train = Ok fitted ->
        exists r w',
          train unicode_lower fit (self, w)
          = (r, (with_model self (Some fitted), w')))
  /\ (forall unicode_lower fit fitted self w,
        stdout_ok w ->
        fit (X_train unicode_lower) y_train = Ok fitted ->
        exists w',
          train unicode_lower fit (self, w)
          = (Ok tt, (with_model self (Some fitted), w')))
  /\ (forall unicode_lower text,
        exists k, keyword_based_classification unicode_lower text = Ok k
                  /\ In k enumeration)
  /\ (forall self processed_text prediction confidence,
        model_ok self ->
        statistical self processed_text = Ok (prediction, confidence) ->
        In prediction enumeration).
Proof.
  split; [reflexivity|]. split; [reflexivity|].
  split; [split; [apply y_train_enumeration | apply enumeration_y_train]|].
  split; [repeat constructor; discriminate|].
  split; [|split; [|split]].
  - intros ul fit fitted self w Hfit. now apply train_keeps_fitted.
  - intros ul fit fitted self w Hq Hfit. eexists.
    now apply train_sets_model.
  - apply keyword_based_classification_total.
  - intros self processed prediction confidence Hok Hstat.
    apply statistical_inv in Hstat
      as (m & labels & rows & row & Hm & Hp & Hpin & _).
    unfold model_ok in Hok. rewrite Hm in Hok. destruct Hok as [Hlab _].
    eapply y_train_enumeration, Hlab; eauto.
Qed.

(** ** Construction on concrete worlds *)

(** A stub pipeline that answers [Noise] is fitted on the training labels,
    and the statistical step on it answers a label of the enumeration. *)
Lemma label_sets_agree_witness :
  In Noise enumeration.
Proof.
  destruct label_sets_agree as (_ & _ & _ & _ & _ & _ & _ & H).
  apply (H (classifier_with (Some (stub_pipeline Noise [0.9%float])))
           [] Noise 0.9%float).
  - apply stub_pipeline_fitted; [|repeat constructor].
    apply enumeration_y_train. vm_compute. auto 10.
  - reflexivity.
Defined.

(** * Further properties *)

(** ** The shape of normalised text *)

Lemma join_head ws :
  Forall word_ok ws -> ws <> [] ->
  exists c s, join [space] ws = c :: s /\ alnum c = true.
Proof.
  intros H Hne. destruct H as [|w ws [Hw Hall] Hws]; [contradiction|].
  destruct w as [|c w]; [contradiction|].
  inversion Hall as [|? ? Hc _]; subst.
  simpl. destruct ws; eauto.
Qed.

Lemma join_last ws :
  Forall word_ok ws -> ws <> [] ->
  exists c s, rev (join [space] ws) = c :: s /\ alnum c = true.
Proof.
  induction 1 as [|w ws [Hw Hall] Hws IH]; intros Hne; [contradiction|].
  destruct ws as [|w' ws].
  - simpl. destruct (rev w) as [|c s] eqn:E.
    + apply (f_equal (@rev _)) in E. rewrite rev_involutive in E.
      contradiction.
    + exists c, s. split; [reflexivity|].
      apply Forall_rev in Hall. rewrite E in Hall. now inversion Hall.
  - destruct IH as (c & s & E & Hc); [discriminate|].
    change (join [space] (w :: w' :: ws))
      with (w ++ [space] ++ join [space] (w' :: ws)).
    rewrite !rev_app_distr, E. simpl. eauto.
Qed.

Lemma lstrip_head c s : isspace c = false -> lstrip (c :: s) = c :: s.
Proof. intros H. simpl. now rewrite H. Qed.

Lemma contains_skip_word k0 k w r :
  Forall (fun c => c <> k0) w ->
  contains (w ++ r) (k0 :: k) = contains r (k0 :: k).
Proof.
  induction 1 as [|c w Hc _ IH]; [reflexivity|].
  cbn [app contains startswith]. rewrite IH.
  destruct (N.eqb_spec k0 c) as [E|_]; [now elim Hc | reflexivity].
Qed.

Lemma alnum_neq_space c : alnum c = true -> c <> space.
Proof. intros H ->. discriminate. Qed.

Lemma join_no_double_space ws :
  Forall word_ok ws -> contains (join [space] ws) [space; space] = false.
Proof.
  induction 1 as [|w ws [Hw Hall] Hws IH]; [reflexivity|].
  assert (Hns : Forall (fun c => c <> space) w).
  { eapply Forall_impl; [| exact Hall]. exact alnum_neq_space. }
  destruct ws as [|w' ws].
  - simpl. rewrite <- (app_nil_r w). now rewrite contains_skip_word.
  - change (join [space] (w :: w' :: ws))
      with (w ++ space :: join [space] (w' :: ws)).
    rewrite contains_skip_word by assumption.
    destruct (join_head _ Hws) as (c & s & E & Hc); [discriminate|].
    cbn [contains]. rewrite IH, E. cbn [startswith].
    destruct (N.eqb_spec space c) as [<-|_]; [discriminate | reflexivity].
Qed.

(** X1: normalised text is made of lower-case ASCII letters, digits and
    spaces; it neither starts nor ends with whitespace and never has two
    spaces in a row. *)
Theorem preprocess_text_normal_form unicode_lower (text : str) :
  let t := preprocess_text unicode_lower text in
  Forall (fun c => alnum c = true \/ c = space) t
  /\ strip t = t
  /\ contains t [space; space] = false.
Proof.
  intros t. subst t.
  destruct (preprocess_text_norm unicode_lower text) as (ws & Hws & ->).
  split; [exact (join_norm _ Hws)|]. split; [|exact (join_no_double_space _ Hws)].
  destruct ws as [|w ws]; [reflexivity|].
  destruct (@join_head (w :: ws) Hws) as (c & s & E & Hc); [discriminate|].
  destruct (@join_last (w :: ws) Hws) as (c' & s' & E' & Hc'); [discriminate|].
  unfold strip, rstrip.
  rewrite E, lstrip_head by now apply alnum_not_space.
  rewrite <- E, E', lstrip_head by now apply alnum_not_space.
  now rewrite <- E', rev_involutive.
Qed.

Lemma split_from_nil s : forall cur,
  split_from cur s = [] <-> cur = [] /\ Forall (fun c => isspace c = true) s.
Proof.
  induction s as [|c s IH]; intros cur; simpl.
  - destruct cur as [|a cur].
    + split; [intros _; split; constructor | reflexivity].
    + split; [discriminate | intros [E _]; discriminate].
  - destruct (isspace c) eqn:E.
    + destruct cur as [|a cur].
      * rewrite IH. split; intros [? H]; split; auto.
        now inversion H.
      * split; [discriminate | intros [? _]; discriminate].
    + rewrite IH. split; [intros [? _]; discriminate|].
      intros [_ H]. inversion H; congruence.
Qed.

Lemma join_nil ws : Forall word_ok ws -> join [space] ws = [] -> ws = [].
Proof.
  intros H E. destruct ws as [|w ws]; [reflexivity|].
  destruct (@join_head (w :: ws) H) as (c & s & E' & _); [discriminate|].
  congruence.
Qed.

Lemma re_sub_special_spaces s :
  Forall (fun c => isspace c = true) (re_sub_special s)
  <-> Forall (fun c => alnum c = false) s.
Proof.
  induction s as [|c s IH]; simpl; [split; constructor|].
  split; intros H; inversion H as [|? ? Hc Hs]; subst; constructor;
    try (now apply IH).
  - destruct (alnum c) eqn:Ea; [|reflexivity].
    rewrite (alnum_keeps c Ea) in Hc.
    now rewrite (alnum_not_space c Ea) in Hc.
  - destruct (keeps c) eqn:Ek; [|reflexivity].
    unfold keeps in Ek. fold (alnum c) in Ek. rewrite Hc in Ek. exact Ek.
Qed.

(** X2: normalisation yields the empty string exactly when the lower-cased
    text has no ASCII letter and no digit. *)
Theorem preprocess_text_empty_iff unicode_lower (text : str) :
  preprocess_text unicode_lower text = []
  <-> Forall (fun c => alnum c = false) (lower unicode_lower text).
Proof.
  rewrite <- re_sub_special_spaces. unfold preprocess_text.
  set (s := re_sub_special (lower unicode_lower text)).
  assert (Hws : Forall word_ok (split s))
    by apply split_words_ok, re_sub_special_keeps.
  split.
  - intros E. apply (join_nil _ Hws) in E. now apply split_from_nil in E.
  - intros H. assert (E : split s = []) by (apply split_from_nil; auto).
    now rewrite E.
Qed.

(** ** More on the keyword path *)





Section KeywordExtras.

Variable unicode_lower : str -> str.

(** X3: when the keyword path answers a category other than [Other], one of
    that category's keywords occurs in the lower-cased text. *)
Theorem keyword_answer_has_match (text r : str) :
  keyword_based_classification unicode_lower text = Ok r ->
  r <> Other ->
  exists k, In k (keywords_of r)
            /\ contains (lower unicode_lower text) k = true.
Proof.
  intros Hr Hne.
  destruct (keyword_based_classification_first unicode_lower text)
    as (r0 & pre & post & _ & _ & _ & Hres).
  rewrite Hres in Hr. injection Hr as Hr.
  destruct (0 <? keyword_count (lower unicode_lower text) r0) eqn:E;
    [|congruence].
  subst r0. apply Nat.ltb_lt in E. unfold keyword_count in E.
  destruct (filter (contains (lower unicode_lower text)) (keywords_of r))
    as [|k ks] eqn:Ef; [simpl in E; lia|].
  assert (Hk : In k (filter (contains (lower unicode_lower text))
                       (keywords_of r))) by (rewrite Ef; now left).
  apply filter_In in Hk. eauto.
Qed.

Lemma cons_inj {A} (a b : A) (l m : list A) :
  a :: l = b :: m -> a = b /\ l = m.
Proof. intros [= -> ->]. auto. Qed.

Lemma Other_is_last pre post :
  enumeration = pre ++ Other :: post ->
  pre = [Electricity; Water_Supply; Road_Transport; Cleanliness; Noise]
  /\ post = [].
Proof.
  unfold enumeration. intros H.
  do 5 (destruct pre as [|? pre];
        [vm_compute in H; discriminate
        | cbn [app] in H; apply cons_inj in H; destruct H as [<- H]]).
  destruct pre as [|? pre]; cbn [app] in H; apply cons_inj in H;
    destruct H as [_ H].
  - now subst.
  - destruct pre; discriminate.
Qed.

(** X4: the keyword path answers [Other] exactly when no keyword of any
    category occurs in the text, or the keywords of [Other] occur strictly
    more often than those of every other category. *)
Theorem keyword_answer_Other_iff (text : str) :
  let n := keyword_count (lower unicode_lower text) in
  keyword_based_classification unicode_lower text = Ok Other
  <-> (forall c, In c enumeration -> n c = 0)
      \/ (forall c, In c enumeration -> c <> Other -> n c < n Other).
Proof.
  intros n.
  destruct (keyword_based_classification_first unicode_lower text)
    as (r0 & pre & post & Hsplit & Hpre & Hpost & Hres).
  fold n in Hpre, Hpost, Hres. rewrite Hres.
  assert (Hmax : forall c, In c enumeration -> n c <= n r0).
  { intros c Hc. rewrite Hsplit in Hc. rewrite Forall_forall in Hpre, Hpost.
    apply in_app_or in Hc as [Hc | [<- | Hc]];
      [apply Nat.lt_le_incl; auto | lia | auto]. }
  assert (Hr0 : In r0 enumeration) by (rewrite Hsplit; apply in_elt).
  assert (HO : In Other enumeration) by (unfold enumeration; simpl; auto 10).
  split.
  - intros H. destruct (0 <? n r0) eqn:E.
    + right. injection H as ->. apply Other_is_last in Hsplit as [-> ->].
      intros c Hc Hne. rewrite Forall_forall in Hpre. apply Hpre.
      unfold enumeration in Hc. simpl in Hc.
      destruct Hc as [Hc|[Hc|[Hc|[Hc|[Hc|[Hc|[]]]]]]]; subst; simpl; auto 10.
    + left. apply Nat.ltb_ge in E. intros c Hc. specialize (Hmax c Hc). lia.
  - intros [Hzero | Hother].
    + rewrite (Hzero r0 Hr0). reflexivity.
    + destruct (str_eq_dec r0 Other) as [->|Hne].
      * now destruct (0 <? n Other).
      * specialize (Hother r0 Hr0 Hne). specialize (Hmax Other HO). lia.
Qed.

End KeywordExtras.


Lemma keyword_answer_has_match_witness :
  exists k, In k (keywords_of Road_Transport)
            /\ contains (lower sample_lower big_pothole_here) k = true.
Proof.
  apply (keyword_answer_has_match sample_lower big_pothole_here).
  - vm_compute. reflexivity.
  - vm_compute. discriminate.
Defined.


(** ** More on [predict] *)

Lemma lstrip_spaces a s :
  Forall (fun c => isspace c = true) a -> lstrip (a ++ s) = lstrip s.
Proof. induction 1 as [|c a Hc _ IH]; simpl; [|rewrite Hc]; auto. Qed.

Lemma lstrip_spaces_after s b :
  Forall (fun c => isspace c = true) b ->
  lstrip (s ++ b) = [] \/ lstrip (s ++ b) = lstrip s ++ b.
Proof.
  intros Hb. induction s as [|c s IH]; simpl.
  - left. rewrite <- (app_nil_r b). rewrite lstrip_spaces; auto.
  - destruct (isspace c); auto.
Qed.

Lemma rstrip_spaces s b :
  Forall (fun c => isspace c = true) b -> rstrip (s ++ b) = rstrip s.
Proof.
  intros Hb. unfold rstrip. rewrite rev_app_distr.
  rewrite lstrip_spaces by now apply Forall_rev. reflexivity.
Qed.

Lemma lstrip_length s : List.length (lstrip s) <= List.length s.
Proof. induction s as [|c s IH]; simpl; [|destruct (isspace c); simpl]; lia. Qed.

Lemma strip_length s : List.length (strip s) <= List.length s.
Proof.
  unfold strip, rstrip. rewrite length_rev.
  etransitivity; [apply lstrip_length|]. rewrite length_rev.
  apply lstrip_length.
Qed.

(** Whitespace around a text does not count in the length [predict] checks. *)
Lemma strip_surrounded a core b :
  Forall (fun c => isspace c = true) a ->
  Forall (fun c => isspace c = true) b ->
  List.length (strip (a ++ core ++ b)) <= List.length core.
Proof.
  intros Ha Hb. unfold strip. rewrite lstrip_spaces by assumption.
  destruct (lstrip_spaces_after core b Hb) as [-> | ->].
  - simpl. lia.
  - rewrite rstrip_spaces by assumption. apply strip_length.
Qed.

Section PredictExtras.

Variable unicode_lower : str -> str.

(** [predict] does not change what stdout takes. *)
Lemma predict_reads_stdout_error self w text ukf :
  exists r,
    fst (predict unicode_lower text ukf (self, w)) = r
    /\ stdout_error (snd (snd (predict unicode_lower text ukf (self, w))))
       = stdout_error w.
Proof.
  eexists. split; [reflexivity|].
  destruct (short_or_long text) as [Hs | Hl].
  - now rewrite predict_short by exact Hs.
  - destruct (predict_by_statistical unicode_lower self w text ukf Hl)
      as (k & _ & _ & ->).
    destruct (statistical self _) as [[p c]|e];
      [destruct (ukf && _); reflexivity|].
    destruct (stdout_error w (ErrorInPrediction e)); reflexivity.
Qed.

(** X6: [predict] only reads: it leaves the classifier, the files and the
    write failures as they were and prints at most one line, the error of
    the statistical step when that step raised.  It returns a pair, except
    when the statistical step raised and printing its error raises: then it
    raises what [print] raised and the world is as it was. *)
Theorem predict_reads_only (self : Classifier) (w : World) (text : str)
    (use_keywords_fallback : bool) :
  exists r w',
    predict unicode_lower text use_keywords_fallback (self, w)
    = (r, (self, w'))
    /\ files w' = files w
    /\ dump_error w' = dump_error w
    /\ ((exists label confidence,
           r = Ok (label, confidence)
           /\ (stdout w' = stdout w
               \/ exists e,
                    statistical self (preprocess_text unicode_lower text)
                    = Raise e
                    /\ stdout w' = stdout w ++ [ErrorInPrediction e]))
        \/ (exists e e',
              statistical self (preprocess_text unicode_lower text) = Raise e
              /\ stdout_error w (ErrorInPrediction e) = Some e'
              /\ r = Raise e' /\ w' = w)).
Proof.
  destruct (short_or_long text) as [Hs | Hl].
  - rewrite predict_short by exact Hs. eauto 12.
  - destruct (predict_by_statistical unicode_lower self w text
                use_keywords_fallback Hl) as (k & _ & _ & ->).
    destruct (statistical self _) as [[p c]|e].
    + destruct (use_keywords_fallback && _); eauto 12.
    + destruct (stdout_error w (ErrorInPrediction e)) as [e'|] eqn:Ep.
      * do 2 eexists. split; [reflexivity|]. eauto 12.
      * do 2 eexists. split; [reflexivity|]. simpl. eauto 12.
Qed.

(** X7: whitespace around the text does not count toward the ten
    characters: a text with fewer than ten characters between leading and
    trailing whitespace is answered [("Other", 0.5)], however long it is. *)
Theorem predict_ignores_surrounding_whitespace (self : Classifier)
    (w : World) (a core b : str) (use_keywords_fallback : bool) :
  Forall (fun c => isspace c = true) a ->
  Forall (fun c => isspace c = true) b ->
  List.length core < 10 ->
  predict unicode_lower (a ++ core ++ b) use_keywords_fallback (self, w)
  = (Ok (Other, 0.5%float), (self, w)).
Proof.
  intros Ha Hb Hlen. apply predict_short. right.
  eapply Nat.le_lt_trans; [apply strip_surrounded; assumption | exact Hlen].
Qed.

(** X8: with [use_keywords_fallback=False] the threshold is not applied: a
    label the statistical step returns is passed on with its probability,
    however low.  The flag does not switch off the handler for a failed
    step: that still prints the error and answers from the keywords with
    confidence 0.5, or raises what [print] raised. *)
Theorem predict_without_fallback (self : Classifier) (w : World) (text : str) :
  long_enough text ->
  (forall prediction confidence,
     statistical self (preprocess_text unicode_lower text)
     = Ok (prediction, confidence) ->
     predict unicode_lower text false (self, w)
     = (Ok (prediction, confidence), (self, w)))
  /\ (forall e,
        statistical self (preprocess_text unicode_lower text) = Raise e ->
        exists k,
          keyword_based_classification unicode_lower text = Ok k
          /\ predict unicode_lower text false (self, w)
             = match stdout_error w (ErrorInPrediction e) with
               | None =>
                   (Ok (k, 0.5%float),
                    (self, printed w [ErrorInPrediction e]))
               | Some e' => (Raise e', (self, w))
               end).
Proof.
  intros Hl.
  destruct (predict_by_statistical unicode_lower self w text false Hl)
    as (k & Hk & _ & ->).
  split.
  - intros p c ->. reflexivity.
  - intros e ->. eauto.
Qed.

(** X25: on an input that passes the short-input check, when the
    statistical step raises and stdout takes the error line, [predict]
    prints the line and returns the keyword classification of the original
    text with confidence 0.5, with either value of the flag. *)
Theorem predict_statistical_failure (self : Classifier) (w : World)
    (text : str) (use_keywords_fallback : bool) (e : exn) :
  long_enough text ->
  statistical self (preprocess_text unicode_lower text) = Raise e ->
  stdout_error w (ErrorInPrediction e) = None ->
  exists k,
    keyword_based_classification unicode_lower text = Ok k
    /\ predict unicode_lower text use_keywords_fallback (self, w)
       = (Ok (k, 0.5%float), (self, printed w [ErrorInPrediction e])).
Proof.
  intros Hlong Hstat Hprint.
  destruct (predict_by_statistical unicode_lower self w text
              use_keywords_fallback Hlong) as (k & Hk & _ & ->).
  rewrite Hstat, Hprint. eauto.
Qed.

End PredictExtras.

Lemma predict_ignores_surrounding_whitespace_witness :
  predict sample_lower (three_spaces ++ pothole ++ three_spaces) true
    (classifier_with (Some (stub_pipeline Noise [0.9%float])), empty_world)
  = (Ok (Other, 0.5%float),
     (classifier_with (Some (stub_pipeline Noise [0.9%float])), empty_world)).
Proof.
  apply (predict_ignores_surrounding_whitespace sample_lower).
  - repeat constructor.
  - repeat constructor.
  - vm_compute. repeat constructor.
Defined.

(** A stub model that is 0.1 sure is believed when the fallback is off. *)
Lemma predict_without_fallback_witness :
  predict sample_lower big_pothole_here false
    (classifier_with (Some (stub_pipeline Noise [0.1%float])), empty_world)
  = (Ok (Noise, 0.1%float),
     (classifier_with (Some (stub_pipeline Noise [0.1%float])), empty_world)).
Proof.
  apply (predict_without_fallback sample_lower
           (classifier_with (Some (stub_pipeline Noise [0.1%float])))
           empty_world big_pothole_here big_pothole_here_long).
  reflexivity.
Defined.

(** An uninitialised model: the attribute lookup raises, the line is
    printed and the keywords answer. *)
Lemma predict_statistical_failure_witness :
  predict sample_lower big_pothole_here true
    (classifier_with None, empty_world)
  = (Ok (Road_Transport, 0.5%float),
     (classifier_with None,
      printed empty_world [ErrorInPrediction AttributeError])).
Proof.
  destruct (predict_statistical_failure sample_lower (classifier_with None)
              empty_world big_pothole_here true AttributeError
              big_pothole_here_long eq_refl eq_refl) as (k & Hk & ->).
  vm_compute in Hk. injection Hk as <-. reflexivity.
Defined.

(** ** More on saving, loading and construction *)

Lemma eqb_str_refl a : eqb_str a a = true.
Proof. now apply eqb_str_true. Qed.

Lemma eqb_str_neq a b : a <> b -> eqb_str a b = false.
Proof.
  intros H. destruct (eqb_str a b) eqn:E; [|reflexivity].
  apply eqb_str_true in E. contradiction.
Qed.

(** X13: [save_model] does not change the object and touches no file but
    the one at the model path; after a write that worked, that file holds
    the model.  It raises only when the line that reports a failure cannot
    be printed, so it returns on a stdout that takes that line. *)
Theorem save_model_frame (self : Classifier) (w : World) :
  exists r w',
    save_model (self, w) = (r, (self, w'))
    /\ (forall p, p <> model_path self -> files w' p = files w p)
    /\ dump_error w' = dump_error w
    /\ (dump_error w (model_path self) = None ->
        files w' (model_path self) = Some (Pickle (model self)))
    /\ ((forall e, stdout_error w (ErrorSaving e) = None) -> r = Ok tt)
    /\ (forall e, r = Raise e ->
                  exists e0, stdout_error w (ErrorSaving e0) = Some e).
Proof.
  unfold save_model, try_except, bind, get_self, joblib_dump, print.
  cbn.
  destruct (dump_error w (model_path self)) as [e1|] eqn:Ed;
    [destruct (dump_leaves w (model_path self)) as [c|]|]; cbn.
  - destruct (stdout_error w (ErrorSaving e1)) as [e2|] eqn:Ep;
      do 2 eexists; (split; [reflexivity|]); cbn;
      (split; [intros p Hp; now rewrite eqb_str_neq|]);
      (split; [reflexivity|]); (split; [discriminate|]); split.
    + intros H. now rewrite H in Ep.
    + intros e [= <-]. eauto.
    + reflexivity.
    + discriminate.
  - destruct (stdout_error w (ErrorSaving e1)) as [e2|] eqn:Ep;
      do 2 eexists; (split; [reflexivity|]); cbn;
      (split; [reflexivity|]);
      (split; [reflexivity|]); (split; [discriminate|]); split.
    + intros H. now rewrite H in Ep.
    + intros e [= <-]. eauto.
    + reflexivity.
    + discriminate.
  - destruct (stdout_error w (ModelSaved (model_path self))) as [e1|] eqn:Es;
      cbn.
    + destruct (stdout_error w (ErrorSaving e1)) as [e2|] eqn:Ep;
        do 2 eexists; (split; [reflexivity|]); cbn;
        (split; [intros p Hp; now rewrite eqb_str_neq|]);
        (split; [reflexivity|]);
        (split; [intros _; now rewrite eqb_str_refl|]); split.
      * intros H. now rewrite H in Ep.
      * intros e [= <-]. eauto.
      * reflexivity.
      * discriminate.
    + do 2 eexists. split; [reflexivity|]. cbn.
      split; [intros p Hp; now rewrite eqb_str_neq|].
      split; [reflexivity|].
      split; [intros _; now rewrite eqb_str_refl|].
      split; [reflexivity | discriminate].
Qed.

Section LifecycleExtras.

Variable unicode_lower : str -> str.

(** The constructor, case by case, on a stdout that takes every line. *)
Lemma ComplaintClassifier_run fit path w :
  stdout_ok w ->
  ComplaintClassifier unicode_lower fit path w
  = let p := effective_path path in
    match files w p with
    | Some (Pickle obj) =>
        (Ok (built p obj), world_after w (files w) [ModelLoaded p])
    | other =>
        let lines := match other with
                     | Some (Corrupt e) => [ErrorLoading e]
                     | _ => []
                     end in
        match fit (X_train unicode_lower) y_train with
        | Ok fitted =>
            (Ok (built p (Some fitted)), trained_world w p fitted lines)
        | Raise e =>
            (Raise e, world_after w (files w) lines)
        end
    end.
Proof.
  intros Hq. unfold ComplaintClassifier. rewrite init_unfold. cbv zeta.
  set (p := effective_path path).
  destruct (files w p) as [[obj|e0]|] eqn:Ef.
  - rewrite load_model_run by exact Hq. cbn [built model_path].
    rewrite Ef. reflexivity.
  - rewrite load_model_run by exact Hq. cbn [built model_path]. rewrite Ef.
    destruct (fit (X_train unicode_lower) y_train) as [fitted|e] eqn:Hfit.
    + now rewrite (train_run _ _ _ w fitted _ Hq Hfit).
    + now rewrite (train_fit_raises _ _ _ _ e Hfit).
  - destruct (fit (X_train unicode_lower) y_train) as [fitted|e] eqn:Hfit.
    + now rewrite (train_sets_model _ _ _ w fitted Hq Hfit).
    + rewrite (train_fit_raises _ _ _ _ e Hfit). cbn.
      now rewrite world_after_nil.
Qed.

(** The constructor when no loadable file is there and [fit] raises. *)
Lemma ComplaintClassifier_fit_raises fit path w e :
  fit (X_train unicode_lower) y_train = Raise e ->
  (forall obj, files w (effective_path path) <> Some (Pickle obj)) ->
  exists e' w',
    ComplaintClassifier unicode_lower fit path w = (Raise e', w')
    /\ files w' = files w
    /\ (e' = e
        \/ exists e0,
             files w (effective_path path) = Some (Corrupt e0)
             /\ stdout_error w (ErrorLoading e0) = Some e').
Proof.
  intros Hfit Hno. unfold ComplaintClassifier. rewrite init_unfold.
  set (p := effective_path path) in *.
  destruct (files w p) as [[obj|e0]|] eqn:Ef; [now elim (Hno obj)| |].
  - unfold load_model, try_except.
    unfold bind at 1 2 3 4. unfold get_self, joblib_load, set_model, print.
    cbn [fst model_path built]. rewrite Ef. cbn.
    destruct (stdout_error w (ErrorLoading e0)) as [e'|] eqn:Ep.
    + do 2 eexists. split; [reflexivity|]. eauto.
    + rewrite (train_fit_raises _ _ _ _ e Hfit).
      do 2 eexists. split; [reflexivity|]. auto.
  - rewrite (train_fit_raises _ _ _ _ e Hfit).
    do 2 eexists. split; [reflexivity|]. auto.
Qed.

(** X9: a failure of [fit] is not caught.  When no loadable model file is at
    the path and [fit] raises, the constructor raises and has written no
    file; it raises what [fit] raised, unless a file that did not load was
    there and the line that reports it could not be printed, when it raises
    what [print] raised. *)
Theorem construction_fit_failure fit (path : option str) (w : World)
    (e : exn) :
  fit (X_train unicode_lower) y_train = Raise e ->
  (forall obj, files w (effective_path path) <> Some (Pickle obj)) ->
  exists e' w',
    ComplaintClassifier unicode_lower fit path w = (Raise e', w')
    /\ files w' = files w
    /\ (e' = e
        \/ exists e0,
             files w (effective_path path) = Some (Corrupt e0)
             /\ stdout_error w (ErrorLoading e0) = Some e').
Proof. apply ComplaintClassifier_fit_raises. Qed.

(** X10: the constructor trusts a model file that loads: when the line that
    reports the load can be printed, the object in the file, whatever it is,
    becomes the model, no file is written, and [fit] plays no part. *)
Theorem construction_loads_file fit (path : option str) (w : World)
    (obj : option Pipeline) :
  files w (effective_path path) = Some (Pickle obj) ->
  stdout_error w (ModelLoaded (effective_path path)) = None ->
  ComplaintClassifier unicode_lower fit path w
  = (Ok (built (effective_path path) obj),
     world_after w (files w) [ModelLoaded (effective_path path)]).
Proof.
  intros Hf Hp. unfold ComplaintClassifier. rewrite init_unfold, Hf.
  unfold load_model, try_except.
  unfold bind at 1 2 3 4. unfold get_self, joblib_load, set_model, print.
  cbn [fst model_path built]. rewrite Hf. cbn. rewrite Hp.
  destruct w. reflexivity.
Qed.

(** X26: construction on a stdout that takes every line, when fitting the
    training bank succeeds.  If a file is at the model path and loads, its
    object becomes the model.  If it is there and loading raises, the error
    is printed and the classifier is trained.  If no file is there, the
    classifier is trained.  A training run writes the fitted model to the
    path; when the write fails the error is printed and the fitted model
    stays in memory.  In every case construction returns, and [predict] on
    the constructed classifier returns a pair. *)
Theorem classifier_lifecycle fit (path : option str) (self0 : Classifier)
    (w : World) (fitted : Pipeline) :
  stdout_ok w ->
  fit (X_train unicode_lower) y_train = Ok fitted ->
  let p := effective_path path in
  __init__ unicode_lower fit path (self0, w)
  = (Ok tt,
     match files w p with
     | Some (Pickle obj) =>
         (built p obj, world_after w (files w) [ModelLoaded p])
     | Some (Corrupt e) =>
         (built p (Some fitted), trained_world w p fitted [ErrorLoading e])
     | None => (built p (Some fitted), trained_world w p fitted [])
     end)
  /\ (forall text use_keywords_fallback,
        exists s1 label confidence s2,
          __init__ unicode_lower fit path (self0, w) = (Ok tt, s1)
          /\ predict unicode_lower text use_keywords_fallback s1
             = (Ok (label, confidence), s2)).
Proof.
  intros Hq Hfit p.
  assert (Hinit : exists c1 w1,
            __init__ unicode_lower fit path (self0, w) = (Ok tt, (c1, w1))
            /\ stdout_ok w1
            /\ (c1, w1)
               = match files w p with
                 | Some (Pickle obj) =>
                     (built p obj, world_after w (files w) [ModelLoaded p])
                 | Some (Corrupt e) =>
                     (built p (Some fitted),
                      trained_world w p fitted [ErrorLoading e])
                 | None =>
                     (built p (Some fitted), trained_world w p fitted [])
                 end).
  { rewrite init_unfold. fold p.
    destruct (files w p) as [[obj|e]|] eqn:Ef.
    - rewrite load_model_run by exact Hq. cbn [built model_path].
      rewrite Ef. do 2 eexists. split; [reflexivity|].
      split; [now apply world_after_stdout_ok | reflexivity].
    - rewrite load_model_run by exact Hq. cbn [built model_path]. rewrite Ef.
      rewrite (train_run _ _ _ w fitted _ Hq Hfit).
      do 2 eexists. split; [reflexivity|]. split; [|reflexivity].
      unfold trained_world. cbn [built model_path].
      destruct (dump_error w p); now apply world_after_stdout_ok.
    - rewrite (train_sets_model _ _ _ w fitted Hq Hfit).
      do 2 eexists. split; [reflexivity|]. split; [|reflexivity].
      unfold trained_world. cbn [built model_path].
      destruct (dump_error w p); now apply world_after_stdout_ok. }
  destruct Hinit as (c1 & w1 & Hinit & Hq1 & Hs).
  split; [rewrite Hinit, Hs; reflexivity|].
  intros text ukf. rewrite Hinit. exists (c1, w1).
  destruct (short_or_long text) as [Hshort | Hl].
  - rewrite (predict_short unicode_lower c1 w1 text ukf Hshort). eauto.
  - destruct (predict_by_statistical unicode_lower c1 w1 text ukf Hl)
      as (k & _ & _ & E).
    rewrite E.
    destruct (statistical c1 _) as [[l c]|e];
      [destruct (ukf && _)|rewrite (Hq1 (ErrorInPrediction e))];
      eauto.
Qed.

End LifecycleExtras.

Lemma construction_fit_failure_witness :
  exists e' w',
    ComplaintClassifier sample_lower failing_fit None empty_world
    = (Raise e', w')
    /\ files w' = files empty_world
    /\ (e' = LibraryError 7
        \/ exists e0,
             files empty_world (effective_path None) = Some (Corrupt e0)
             /\ stdout_error empty_world (ErrorLoading e0) = Some e').
Proof.
  apply (construction_fit_failure sample_lower failing_fit None empty_world).
  - reflexivity.
  - discriminate.
Defined.

(** A file that holds a pickled [None] is loaded as the model [None]. *)
Lemma construction_loads_file_witness :
  ComplaintClassifier sample_lower failing_fit None
    (world_with default_model_path (Pickle None))
  = (Ok (built default_model_path None),
     world_after (world_with default_model_path (Pickle None))
       (files (world_with default_model_path (Pickle None)))
       [ModelLoaded default_model_path]).
Proof.
  apply (construction_loads_file sample_lower failing_fit None
           (world_with default_model_path (Pickle None)) None);
    reflexivity.
Defined.

Lemma empty_world_stdout_ok : stdout_ok empty_world.
Proof. intros l. reflexivity. Qed.

Lemma readonly_world_stdout_ok : stdout_ok readonly_world.
Proof. intros l. reflexivity. Qed.

(** On a read-only file system with no model file, construction trains,
    reports that saving failed and keeps the fitted model. *)
Lemma classifier_lifecycle_witness :
  __init__ sample_lower stub_fit None (classifier_with None, readonly_world)
  = (Ok tt,
     (built default_model_path (Some stub_fitted),
      world_after readonly_world (files readonly_world)
        [ErrorSaving (LibraryError 30); ModelTrained 60])).
Proof.
  exact (proj1 (classifier_lifecycle sample_lower stub_fit None
                  (classifier_with None) readonly_world stub_fitted
                  readonly_world_stdout_ok eq_refl)).
Defined.

(** ** The singleton *)

Section Singleton.

Variable unicode_lower : str -> str.

(** When the constructor raises, [fit] raised or a [print] did. *)
Lemma ComplaintClassifier_raises fit path w e w' :
  ComplaintClassifier unicode_lower fit path w = (Raise e, w') ->
  fit (X_train unicode_lower) y_train = Raise e
  \/ exists l, stdout_error w l = Some e.
Proof.
  unfold ComplaintClassifier. rewrite init_unfold.
  unfold load_model, train, save_model.
  unfold try_except, bind, get_self, joblib_load, joblib_dump, set_model,
    lift, print.
  destruct (fit (X_train unicode_lower) y_train) as [fitted|e1] eqn:Hfit;
    destruct (files w (effective_path path)) as [[obj|e0]|] eqn:Ef;
    cbn -[X_train]; rewrite ?Ef; cbn -[X_train];
    world_cases; cbn -[X_train]; world_cases; cbn -[X_train];
    world_cases; cbn -[X_train]; world_cases; cbn -[X_train];
    intros [= <- <-]; eauto.
Qed.

(** X14: the classifier is built once.  After [get_classifier] has returned
    a classifier, every later call returns that classifier and leaves the
    world alone: the model file is not read again, even if it has changed,
    and nothing is trained, whatever [fit] would do. *)
Theorem get_classifier_once fit (g g1 : Globals) (c : Classifier) :
  get_classifier unicode_lower fit g = (Ok c, g1) ->
  forall fit' w2,
    get_classifier unicode_lower fit' (fst g1, w2) = (Ok c, (fst g1, w2)).
Proof.
  destruct g as [[c0|] w]; simpl.
  - intros [= <- <-]. reflexivity.
  - destruct (ComplaintClassifier unicode_lower fit None w) as [[c1|e] w1];
      intros [= <- <-]; reflexivity.
Qed.

(** X15: a failure of [get_classifier] is not cached.  It raises only when
    it has to build the classifier, and then because [fit] raised or a line
    could not be printed; the global stays unset, so the next call builds
    again. *)
Theorem get_classifier_failure fit (g g1 : Globals) (e : exn) :
  get_classifier unicode_lower fit g = (Raise e, g1) ->
  fst g = None /\ fst g1 = None
  /\ (fit (X_train unicode_lower) y_train = Raise e
      \/ exists l, stdout_error (snd g) l = Some e).
Proof.
  destruct g as [[c0|] w]; simpl; [discriminate|].
  destruct (ComplaintClassifier unicode_lower fit None w) as [[c1|e1] w1]
    eqn:E; intros [= <- <-]. repeat split.
  eapply ComplaintClassifier_raises, E.
Qed.

(** [predict_category] in a sound state, on a stdout that takes every line. *)
Lemma predict_category_ok fit fitted g text :
  stdout_ok (snd g) ->
  fit (X_train unicode_lower) y_train = Ok fitted ->
  fitted_on y_train fitted ->
  globals_ok g ->
  exists label confidence g',
    predict_category unicode_lower fit text g = (Ok (label, confidence), g')
    /\ In label enumeration
    /\ in_unit_interval confidence
    /\ globals_ok g'
    /\ stdout_ok (snd g').
Proof.
  intros Hq Hfit Hfitted Hg. unfold predict_category.
  assert (Hget : exists c w1,
            get_classifier unicode_lower fit g = (Ok c, (Some c, w1))
            /\ model_ok c /\ stdout_ok w1).
  { destruct g as [[c0|] w]; simpl in *; [eauto|].
    unfold globals_ok in Hg. simpl in Hg.
    rewrite ComplaintClassifier_run by exact Hq. cbv zeta. rewrite Hfit.
    change (effective_path None) with default_model_path.
    unfold trained_world.
    destruct (files w default_model_path) as [[[p|]|e0]|] eqn:Ef;
      try destruct (dump_error w default_model_path);
      do 2 eexists; (split; [reflexivity|]); unfold model_ok; simpl;
      (split; [auto | now apply world_after_stdout_ok]). }
  destruct Hget as (c & w1 & -> & Hc & Hq1).
  destruct (predict_sound unicode_lower c w1 text true Hc
              (fun e _ => Hq1 (ErrorInPrediction e)))
    as (label & confidence & w' & E & Hl & Hconf).
  rewrite E. exists label, confidence, (Some c, w').
  split; [reflexivity|]. split; [exact Hl|]. split; [exact Hconf|].
  split; [exact Hc|].
  destruct (predict_reads_stdout_error unicode_lower c w1 text true)
    as [r [_ Hr]].
  rewrite E in Hr. simpl in Hr. intros l. simpl. rewrite Hr. apply Hq1.
Qed.

(** X16: end to end.  On a stdout that takes every line, when scikit-learn's
    [fit] succeeds on the training bank with a pipeline that keeps its
    contract, [predict_category] returns a label of the enumeration and a
    confidence between 0 and 1 on every text, whether the classifier was
    already built, is loaded from a file that holds such a pipeline, or has
    to be trained; and the module stays in such a state. *)
Theorem predict_category_sound fit (fitted : Pipeline) (g : Globals)
    (text : str) :
  stdout_ok (snd g) ->
  fit (X_train unicode_lower) y_train = Ok fitted ->
  fitted_on y_train fitted ->
  globals_ok g ->
  exists label confidence g',
    predict_category unicode_lower fit text g = (Ok (label, confidence), g')
    /\ In label enumeration
    /\ in_unit_interval confidence
    /\ globals_ok g'
    /\ stdout_ok (snd g').
Proof.
  intros Hq Hfit Hfitted Hg.
  destruct (predict_category_ok fit fitted g text Hq Hfit Hfitted Hg)
    as (label & confidence & g' & H).
  exists label, confidence, g'. exact H.
Qed.

(** [predict_category] on a first use with no loadable file and a [fit]
    that raises. *)
Lemma predict_category_fit_raises fit w text e :
  fit (X_train unicode_lower) y_train = Raise e ->
  (forall obj, files w default_model_path <> Some (Pickle obj)) ->
  exists e' w',
    predict_category unicode_lower fit text (None, w)
    = (Raise e', (None, w'))
    /\ files w' = files w
    /\ (e' = e
        \/ exists e0,
             files w default_model_path = Some (Corrupt e0)
             /\ stdout_error w (ErrorLoading e0) = Some e').
Proof.
  intros Hfit Hno. unfold predict_category, get_classifier.
  destruct (ComplaintClassifier_fit_raises unicode_lower fit None w e Hfit Hno)
    as (e' & w' & -> & Hf & He).
  eauto.
Qed.

(** X17: [predict_category] builds the classifier before it looks at the
    text.  On a first call with no loadable model file and a [fit] that
    raises, it raises on every text, the empty one included, which
    [predict] alone answers without a model; no file has been written.  It
    raises what [fit] raised, unless a file that did not load was there and
    the line that reports it could not be printed, when it raises what
    [print] raised. *)
Theorem predict_category_builds_first fit (w : World) (text : str)
    (e : exn) :
  fit (X_train unicode_lower) y_train = Raise e ->
  (forall obj, files w default_model_path <> Some (Pickle obj)) ->
  exists e' w',
    predict_category unicode_lower fit text (None, w)
    = (Raise e', (None, w'))
    /\ files w' = files w
    /\ (e' = e
        \/ exists e0,
             files w default_model_path = Some (Corrupt e0)
             /\ stdout_error w (ErrorLoading e0) = Some e').
Proof. apply predict_category_fit_raises. Qed.

End Singleton.

(** After a first call that trained, a call with a [fit] that raises, on a
    read-only file system without the file, still returns the classifier. *)
Lemma get_classifier_once_witness :
  get_classifier sample_lower failing_fit
    (Some (built default_model_path (Some stub_fitted)), readonly_world)
  = (Ok (built default_model_path (Some stub_fitted)),
     (Some (built default_model_path (Some stub_fitted)), readonly_world)).
Proof.
  exact (get_classifier_once sample_lower stub_fit (None, empty_world)
           _ _ eq_refl failing_fit readonly_world).
Defined.

(** On a stdout that cannot encode the lines, the first call raises although
    [fit] succeeded; the global stays unset. *)
Lemma get_classifier_failure_witness :
  fst (None : option Classifier, unencodable_world) = None
  /\ fst (snd (get_classifier sample_lower stub_fit
                 (None, unencodable_world))) = None
  /\ (stub_fit (X_train sample_lower) y_train = Raise UnicodeEncodeError
      \/ exists l,
           stdout_error (snd (None : option Classifier, unencodable_world)) l
           = Some UnicodeEncodeError).
Proof.
  exact (get_classifier_failure sample_lower stub_fit
           (None, unencodable_world) _ UnicodeEncodeError eq_refl).
Defined.

Lemma stub_fitted_contract : fitted_on y_train stub_fitted.
Proof.
  apply stub_pipeline_fitted; [|repeat constructor].
  apply enumeration_y_train. vm_compute. auto 10.
Qed.

Lemma fresh_globals_ok : globals_ok (None, empty_world).
Proof. unfold globals_ok. simpl. discriminate. Qed.

Lemma predict_category_sound_witness :
  exists label confidence g',
    predict_category sample_lower stub_fit power_outage (None, empty_world)
    = (Ok (label, confidence), g')
    /\ In label enumeration
    /\ in_unit_interval confidence
    /\ globals_ok g'
    /\ stdout_ok (snd g').
Proof.
  exact (predict_category_sound sample_lower stub_fit stub_fitted
           (None, empty_world) power_outage empty_world_stdout_ok eq_refl
           stub_fitted_contract fresh_globals_ok).
Defined.

Lemma predict_category_builds_first_witness :
  exists e' w',
    predict_category sample_lower failing_fit [] (None, empty_world)
    = (Raise e', (None, w'))
    /\ files w' = files empty_world
    /\ (e' = LibraryError 7
        \/ exists e0,
             files empty_world default_model_path = Some (Corrupt e0)
             /\ stdout_error empty_world (ErrorLoading e0) = Some e').
Proof.
  apply (predict_category_builds_first sample_lower failing_fit empty_world
           [] (LibraryError 7)).
  - reflexivity.
  - discriminate.
Defined.

(** ** The portal *)


Lemma firstn_50_length (m : str) :
  50 < List.length m -> List.length (firstn 50 m) = 50.
Proof. intros H. rewrite length_firstn. lia. Qed.

(** X19: the preview of a response is the message itself when the message
    has at most 50 characters, and otherwise its first 50 characters followed
    by three dots: 53 characters, which is longer than a message of 51 or
    52 characters. *)
Theorem short_message_length (message : str) :
  (List.length message <= 50 -> short_message message = message)
  /\ (50 < List.length message ->
      short_message message = firstn 50 message ++ [46; 46; 46]%N
      /\ List.length (short_message message) = 53)
  /\ List.length (short_message message) <= 53.
Proof.
  unfold short_message.
  destruct (Nat.ltb_spec 50 (List.length message)) as [H | H].
  - assert (E : List.length (firstn 50 message) = 50)
      by now apply firstn_50_length.
    split; [lia|]. rewrite length_app, E. split; [|simpl; lia].
    intros _. split; reflexivity.
  - split; [reflexivity|]. split; lia.
Qed.

(** ** [populate_categories] *)

Lemma NoDup_map_eq {A B} (g : A -> B) (l : list A) x y :
  NoDup (map g l) -> In x l -> In y l -> g x = g y -> x = y.
Proof.
  induction l as [|a l IH]; simpl; [contradiction|].
  intros Hnd Hx Hy E. inversion Hnd as [|? ? Hna Hnd']; subst.
  destruct Hx as [<-|Hx], Hy as [<-|Hy]; auto.
  - elim Hna. rewrite E. now apply in_map.
  - elim Hna. rewrite <- E. now apply in_map.
Qed.

Lemma filter_map_same {A} (p : A -> bool) (f : A -> A) (l : list A) :
  (forall r, In r l -> p (f r) = p r) ->
  filter p (map f l) = map f (filter p l).
Proof.
  induction l as [|a l IH]; simpl; intros H; [reflexivity|].
  rewrite H by auto. destruct (p a); simpl; rewrite IH; auto.
Qed.

Lemma map_fixed {A} (f : A -> A) (l : list A) :
  (forall r, In r l -> f r = r) -> map f l = l.
Proof.
  induction l as [|a l IH]; simpl; intros H; [reflexivity|].
  rewrite H, IH; auto.
Qed.

Lemma rows_named_In d n c :
  In c (rows_named d n) <-> In c (categories_table d) /\ Category.name c = n.
Proof. unfold rows_named. rewrite filter_In, eqb_str_true. reflexivity. Qed.

(** With unique names a name has no row or one. *)
Lemma rows_named_unique d n :
  NoDup (map Category.name (categories_table d)) ->
  rows_named d n = [] \/ exists c, rows_named d n = [c].
Proof.
  unfold rows_named. induction (categories_table d) as [|a l IH]; simpl;
    intros Hnd; [auto|].
  inversion Hnd as [|? ? Hna Hnd']; subst.
  destruct (eqb_str (Category.name a) n) eqn:E; [|auto].
  right. exists a. f_equal.
  destruct (filter _ l) as [|x xs] eqn:Ef; [reflexivity|].
  assert (Hx : In x (filter (fun c => eqb_str (Category.name c) n) l))
    by (rewrite Ef; now left).
  apply filter_In in Hx as [Hx Hn]. apply eqb_str_true in Hn, E.
  elim Hna. rewrite E, <- Hn. now apply in_map.
Qed.

Lemma Category_get_rows d n :
  Category_get d n
  = match rows_named d n with
    | [] => DoesNotExist
    | [c] => Found c
    | _ => MultipleObjectsReturned
    end.
Proof. reflexivity. Qed.

Lemma existsb_pk_In (c : Category.t) l :
  In c l -> existsb (fun r => Category.pk r =? Category.pk c) l = true.
Proof.
  intros H. apply existsb_exists. exists c. split; [exact H|].
  apply Nat.eqb_refl.
Qed.

Section Populate.

Variables (d : Db) (n dsc : str).
Hypothesis Hwf : categories_wf d.

(** Creating the row when the name has none. *)
Lemma create_step :
  rows_named d n = [] ->
  let d' := snd (Category_create d n (Some dsc)) in
  categories_wf d'
  /\ entry_done d' (n, dsc)
  /\ (forall n', n' <> n -> rows_named d' n' = rows_named d n')
  /\ complaints_table d' = complaints_table d.
Proof.
  destruct Hwf as (Hnames & Hpks & Hlt). intros Hnone. simpl.
  set (c := {| Category.pk := next_category_pk d; Category.name := n;
               Category.description := Some dsc;
               Category.created_at := now d |}).
  assert (Hfresh : ~ In n (map Category.name (categories_table d))).
  { intros Hin. apply in_map_iff in Hin as (x & Hx & Hin).
    assert (Hr : In x (rows_named d n)) by now apply rows_named_In.
    now rewrite Hnone in Hr. }
  split; [|split; [|split]].
  - unfold categories_wf. simpl. rewrite !map_app. simpl.
    split; [|split].
    + apply NoDup_app; [exact Hnames | repeat constructor; auto |].
      intros x Hx [<-|[]]. contradiction.
    + apply NoDup_app; [exact Hpks | repeat constructor; auto |].
      intros x Hx [<-|[]]. apply in_map_iff in Hx as (r & Hr & Hin).
      rewrite Forall_forall in Hlt. specialize (Hlt r Hin). lia.
    + apply Forall_app. split.
      * eapply Forall_impl; [|exact Hlt]. simpl. intros; lia.
      * repeat constructor.
  - exists c. split; [|reflexivity].
    unfold rows_named in *. simpl. rewrite filter_app, Hnone. simpl.
    now rewrite eqb_str_refl.
  - intros n' Hne. unfold rows_named. simpl. rewrite filter_app. simpl.
    rewrite (eqb_str_neq n n') by congruence. now rewrite app_nil_r.
  - reflexivity.
Qed.

(** Rewriting the description of the one row with the name. *)
Lemma update_step c :
  rows_named d n = [c] ->
  let d' := Category_save d (set_description c (Some dsc)) in
  categories_wf d'
  /\ entry_done d' (n, dsc)
  /\ (forall n', n' <> n -> rows_named d' n' = rows_named d n')
  /\ complaints_table d' = complaints_table d.
Proof.
  destruct Hwf as (Hnames & Hpks & Hlt). intros Hone.
  assert (Hc : In c (categories_table d) /\ Category.name c = n).
  { apply rows_named_In. rewrite Hone. now left. }
  destruct Hc as [Hc Hn].
  set (c' := set_description c (Some dsc)).
  set (f := fun r => if Category.pk r =? Category.pk c' then c' else r).
  assert (Hsame : forall r, In r (categories_table d) ->
                            Category.pk r = Category.pk c -> r = c).
  { intros r Hr E. eapply NoDup_map_eq; eauto. }
  assert (Hf : forall r, In r (categories_table d) ->
                         (r = c /\ f r = c') \/ (r <> c /\ f r = r)).
  { intros r Hr. unfold f. simpl.
    destruct (Nat.eqb_spec (Category.pk r) (Category.pk c)) as [E|E].
    - left. auto.
    - right. split; [congruence | reflexivity]. }
  assert (Hname : forall r, In r (categories_table d) ->
                            Category.name (f r) = Category.name r).
  { intros r Hr. destruct (Hf r Hr) as [[-> ->]|[_ ->]]; reflexivity. }
  assert (Hpk : forall r, In r (categories_table d) ->
                          Category.pk (f r) = Category.pk r).
  { intros r Hr. destruct (Hf r Hr) as [[-> ->]|[_ ->]]; reflexivity. }
  assert (Htable : categories_table (Category_save d c')
                   = map f (categories_table d)).
  { unfold Category_save. simpl.
    now rewrite (existsb_pk_In c (categories_table d) Hc). }
  assert (Hrows : forall n', rows_named (Category_save d c') n'
                             = map f (rows_named d n')).
  { intros n'. unfold rows_named. rewrite Htable.
    apply filter_map_same. intros r Hr. now rewrite Hname. }
  cbv zeta. fold c'. split; [|split; [|split]].
  - unfold categories_wf. rewrite Htable, !map_map.
    rewrite (map_ext_in _ Category.name) by exact Hname.
    rewrite (map_ext_in _ Category.pk) by exact Hpk.
    split; [exact Hnames|]. split; [exact Hpks|].
    apply Forall_map. rewrite Forall_forall in *. intros r Hr.
    rewrite Hpk by exact Hr. simpl. auto.
  - exists c'. split; [|reflexivity]. simpl. rewrite Hrows, Hone. simpl.
    f_equal. destruct (Hf c Hc) as [[_ E]|[E _]]; [exact E | now elim E].
  - intros n' Hne. rewrite Hrows. apply map_fixed. intros r Hr.
    apply rows_named_In in Hr as [Hr Hrn].
    destruct (Hf r Hr) as [[-> _]|[_ E]]; [congruence | exact E].
  - reflexivity.
Qed.

End Populate.

Lemma eqb_description_true a dsc :
  eqb_description a dsc = true <-> a = Some dsc.
Proof.
  destruct a as [s|]; simpl; [|split; discriminate].
  rewrite eqb_str_true. split; [now intros -> | now intros [= ->]].
Qed.

(** One turn of the loop of [handle]. *)
Lemma handle_entry_step d entry cr up out :
  categories_wf d ->
  exists cr' up' out' d',
    handle_entry entry (cr, up, out, d) = Found (cr', up', out', d')
    /\ categories_wf d'
    /\ entry_done d' entry
    /\ (forall n', n' <> fst entry -> rows_named d' n' = rows_named d n')
    /\ complaints_table d' = complaints_table d
    /\ (entry_done d entry -> d' = d /\ cr' = cr /\ up' = up).
Proof.
  intros Hwf. destruct entry as [n dsc].
  unfold handle_entry, Category_get_or_create. rewrite Category_get_rows.
  destruct (rows_named_unique d n (proj1 Hwf)) as [Hnone | [c Hone]].
  - rewrite Hnone.
    destruct (create_step d n dsc Hwf Hnone) as (H1 & H2 & H3 & H4).
    do 4 eexists. split; [reflexivity|].
    split; [exact H1|]. split; [exact H2|]. split; [exact H3|].
    split; [exact H4|].
    intros (c & Hc & _). simpl in Hc. rewrite Hnone in Hc. discriminate.
  - rewrite Hone.
    destruct (eqb_description (Category.description c) dsc) eqn:E; simpl.
    + apply eqb_description_true in E.
      do 4 eexists. split; [reflexivity|].
      split; [exact Hwf|]. split; [exists c; auto|]. auto.
    + destruct (update_step d n dsc Hwf c Hone) as (H1 & H2 & H3 & H4).
      do 4 eexists. split; [reflexivity|].
      split; [exact H1|]. split; [exact H2|]. split; [exact H3|].
      split; [exact H4|].
      intros (c0 & Hc & Hd). simpl in Hc, Hd. rewrite Hone in Hc.
      injection Hc as <-. apply eqb_description_true in Hd. congruence.
Qed.

(** The loop of [handle] over entries with distinct names. *)
Lemma handle_loop_run data : forall d cr up out,
  NoDup (map fst data) ->
  categories_wf d ->
  exists cr' up' out' d',
    handle_loop data (cr, up, out, d) = Found (cr', up', out', d')
    /\ categories_wf d'
    /\ (forall entry, In entry data -> entry_done d' entry)
    /\ (forall n', ~ In n' (map fst data) -> rows_named d' n' = rows_named d n')
    /\ complaints_table d' = complaints_table d
    /\ ((forall entry, In entry data -> entry_done d entry) ->
        d' = d /\ cr' = cr /\ up' = up).
Proof.
  induction data as [|entry data IH]; intros d cr up out Hnd Hwf;
    cbn [handle_loop].
  - do 4 eexists. split; [reflexivity|]. split; [exact Hwf|].
    split; [intros entry []|]. auto.
  - inversion Hnd as [|? ? Hfresh Hnd']; subst.
    destruct (handle_entry_step d entry cr up out Hwf)
      as (cr1 & up1 & out1 & d1 & -> & Hwf1 & Hdone1 & Hkeep1 & Hc1 & Hid1).
    destruct (IH d1 cr1 up1 out1 Hnd' Hwf1)
      as (cr2 & up2 & out2 & d2 & -> & Hwf2 & Hdone2 & Hkeep2 & Hc2 & Hid2).
    do 4 eexists. split; [reflexivity|].
    split; [exact Hwf2|]. split; [|split; [|split]].
    + intros e [<-|He]; [|now apply Hdone2].
      destruct Hdone1 as (c & Hrows & Hd). exists c.
      rewrite Hkeep2 by exact Hfresh. split; assumption.
    + intros n' Hn'. simpl in Hn'. rewrite Hkeep2, Hkeep1; auto.
    + congruence.
    + intros Hall.
      destruct (Hid1 (Hall entry (or_introl eq_refl))) as (-> & -> & ->).
      apply Hid2. intros e He. apply Hall. now right.
Qed.

Lemma categories_data_names : map fst categories_data = enumeration.
Proof. reflexivity. Qed.

Lemma enumeration_NoDup : NoDup enumeration.
Proof.
  unfold enumeration.
  repeat (constructor;
          [simpl; intros H; repeat (destruct H as [H|H]; [vm_compute in H; discriminate|]);
           exact H|]).
  constructor.
Qed.

(** X20: [populate_categories] on a categories table with unique names and
    keys does not raise; afterwards the table still has unique names and
    keys, every name of the classifier's enumeration has exactly one row,
    with the description of the command, rows with other names are as they
    were, and no complaint has changed. *)
Theorem handle_populates (d : Db) :
  categories_wf d ->
  exists created updated out d',
    handle d = Found (created, updated, out, d')
    /\ categories_wf d'
    /\ (forall n, In n enumeration ->
                  exists c, Category_get d' n = Found c
                            /\ Category.name c = n
                            /\ In (n, Category.description c)
                                 (map (fun e => (fst e, Some (snd e)))
                                    categories_data))
    /\ (forall n, ~ In n enumeration -> rows_named d' n = rows_named d n)
    /\ complaints_table d' = complaints_table d.
Proof.
  intros Hwf. unfold handle.
  destruct (handle_loop_run categories_data d 0 0 [])
    as (cr & up & out & d' & -> & Hwf' & Hdone & Hkeep & Hc & _);
    [rewrite categories_data_names; apply enumeration_NoDup | exact Hwf|].
  do 4 eexists. split; [reflexivity|]. split; [exact Hwf'|].
  split; [|split; [|exact Hc]].
  - intros n Hn. rewrite <- categories_data_names in Hn.
    apply in_map_iff in Hn as ([n0 dsc] & <- & Hin).
    destruct (Hdone _ Hin) as (c & Hrows & Hd). simpl in Hrows, Hd.
    cbn [fst]. exists c. rewrite Category_get_rows, Hrows. split; [reflexivity|].
    assert (Hc' : In c (rows_named d' n0)) by (rewrite Hrows; now left).
    apply rows_named_In in Hc' as [_ Hname]. split; [exact Hname|].
    rewrite Hd. apply in_map_iff. exists (n0, dsc). auto.
  - intros n Hn. apply Hkeep. now rewrite categories_data_names.
Qed.

(** X21: [populate_categories] is idempotent: a second run after a first
    creates nothing, updates nothing and leaves the database as it is. *)
Theorem handle_idempotent (d d1 : Db) (created updated : nat)
    (out : list CommandLine) :
  categories_wf d ->
  handle d = Found (created, updated, out, d1) ->
  exists out2, handle d1 = Found (0, 0, out2, d1).
Proof.
  intros Hwf Hrun. unfold handle in *.
  destruct (handle_loop_run categories_data d 0 0 [])
    as (cr & up & out1 & d' & E & Hwf' & Hdone & _);
    [rewrite categories_data_names; apply enumeration_NoDup | exact Hwf|].
  rewrite E in Hrun. injection Hrun as _ _ _ <-.
  destruct (handle_loop_run categories_data d' 0 0 [])
    as (cr2 & up2 & out2 & d2 & E2 & _ & _ & _ & _ & Hid);
    [rewrite categories_data_names; apply enumeration_NoDup | exact Hwf'|].
  destruct (Hid Hdone) as (-> & -> & ->).
  rewrite E2. eauto.
Qed.

Lemma empty_db_wf : categories_wf empty_db.
Proof. repeat split; constructor. Qed.

Lemma handle_populates_witness :
  exists created updated out d',
    handle empty_db = Found (created, updated, out, d')
    /\ categories_wf d'
    /\ (forall n, In n enumeration ->
                  exists c, Category_get d' n = Found c
                            /\ Category.name c = n
                            /\ In (n, Category.description c)
                                 (map (fun e => (fst e, Some (snd e)))
                                    categories_data))
    /\ (forall n, ~ In n enumeration ->
                  rows_named d' n = rows_named empty_db n)
    /\ complaints_table d' = complaints_table empty_db.
Proof. exact (handle_populates empty_db empty_db_wf). Defined.

Lemma handle_empty_db :
  exists out, handle empty_db = Found (6, 0, out, populated_db).
Proof. eexists. vm_compute. reflexivity. Qed.

Lemma handle_idempotent_witness :
  exists out2, handle populated_db = Found (0, 0, out2, populated_db).
Proof.
  destruct handle_empty_db as (out & H).
  exact (handle_idempotent empty_db populated_db 6 0 out empty_db_wf H).
Defined.

(** ** [submit_complaint] *)


(** What [Complaint.save] keeps and sets. *)
Lemma Complaint_save_fields (self : Complaint.t) (d : Db) :
  Complaint.predicted_category (fst (Complaint_save self d))
  = Complaint.predicted_category self
  /\ Complaint.final_category (fst (Complaint_save self d))
     = Complaint.get_category self
  /\ Complaint.user (fst (Complaint_save self d)) = Complaint.user self
  /\ Complaint.description (fst (Complaint_save self d))
     = Complaint.description self
  /\ categories_table (snd (Complaint_save self d)) = categories_table d.
Proof.
  unfold Complaint_save, Complaint_super_save, Complaint.get_category.
  destruct self as [k u t ds im ar pred fin st notes ca ua]. simpl.
  destruct fin as [f|], pred as [p|], k as [key|]; simpl;
    repeat split.
Qed.

Section SubmitComplaint.

Variable unicode_lower : str -> str.
Variable fit : list str -> list str -> result Pipeline.

(** A saved complaint is in the complaints table. *)
Lemma Complaint_save_In (complaint : Complaint.t) (d : Db) :
  In (fst (Complaint_save complaint d))
    (complaints_table (snd (Complaint_save complaint d))).
Proof.
  unfold Complaint_save.
  set (c := match Complaint.final_category complaint,
                  Complaint.predicted_category complaint with
            | None, Some _ =>
                Complaint.set_categories complaint
                  (Complaint.predicted_category complaint)
                  (Complaint.predicted_category complaint)
            | _, _ => complaint
            end).
  unfold Complaint_super_save.
  destruct (Complaint.pk c) as [key|]; cbn [fst snd complaints_table].
  - match goal with
    | |- In ?row (if existsb ?same ?l then _ else _) =>
        destruct (existsb same l) eqn:E
    end.
    + apply existsb_exists in E as (r & Hr & Hsame).
      apply in_map_iff. exists r. split; [|exact Hr].
      cbv beta. now rewrite Hsame.
    + apply in_or_app. right. now left.
  - apply in_or_app. right. now left.
Qed.


(** X23: when the predicted label has no row in the categories table, a
    complaint that came from the form without categories is still saved, in
    the complaints table, without categories, and the user is told that the
    category could not be detected. *)
Theorem submit_complaint_without_category (s : Portal)
    (complaint : Complaint.t) (request_user : nat) (label : str)
    (confidence : float) (g' : Globals) :
  predict_category unicode_lower fit (Complaint.description complaint)
    (globals s)
  = (Ok (label, confidence), g') ->
  Category_get (db s) label = DoesNotExist ->
  Complaint.predicted_category complaint = None ->
  Complaint.final_category complaint = None ->
  exists saved db',
    submit_complaint unicode_lower fit complaint request_user s
    = (RedirectMyComplaints saved,
       {| globals := g'; db := db';
          messages := messages s ++ [CouldNotBeDetected] |})
    /\ In saved (complaints_table db')
    /\ Complaint.get_category saved = None
    /\ get_category_display saved = lit "Uncategorized"
    /\ Complaint.user saved = request_user
    /\ categories_table db' = categories_table (db s).
Proof.
  intros Hpred Hrow Hp Hf. unfold submit_complaint.
  change (Complaint.description (Complaint.set_user complaint request_user))
    with (Complaint.description complaint).
  rewrite Hpred, Hrow.
  set (cc := Complaint.set_user complaint request_user).
  pose proof (Complaint_save_In cc (db s)) as Hsaved.
  pose proof (Complaint_save_fields cc (db s)) as (Hp' & Hf' & Hu & Hd & Ht).
  destruct (Complaint_save cc (db s)) as [saved db'].
  cbn [fst snd] in *.
  exists saved, db'. split; [reflexivity|].
  assert (Hcat : Complaint.get_category saved = None).
  { unfold Complaint.get_category. rewrite Hf', Hp'.
    unfold Complaint.get_category, cc. cbn. now rewrite Hf, Hp. }
  split; [exact Hsaved|]. split; [exact Hcat|].
  split; [unfold get_category_display; now rewrite Hcat|].
  split; [exact Hu | exact Ht].
Qed.

(** X24: when the classifier cannot be built, the submission fails.  On a
    first use with no loadable model file and a [fit] that raises, the view
    raises before it saves: the database and the messages are as they were.
    It raises what [fit] raised, unless a file that did not load was there
    and the line that reports it could not be printed, when it raises what
    [print] raised. *)
Theorem submit_complaint_classifier_failure (w : World) (d : Db)
    (ms : list Message) (complaint : Complaint.t) (request_user : nat)
    (e : exn) :
  fit (X_train unicode_lower) y_train = Raise e ->
  (forall obj, files w default_model_path <> Some (Pickle obj)) ->
  exists e' s',
    submit_complaint unicode_lower fit complaint request_user
      {| globals := (None, w); db := d; messages := ms |}
    = (ClassifierRaised e', s')
    /\ db s' = d
    /\ messages s' = ms
    /\ fst (globals s') = None
    /\ (e' = e
        \/ exists e0,
             files w default_model_path = Some (Corrupt e0)
             /\ stdout_error w (ErrorLoading e0) = Some e').
Proof.
  intros Hfit Hno. unfold submit_complaint. cbn [globals].
  destruct (predict_category_fit_raises unicode_lower fit w
              (Complaint.description
                 (Complaint.set_user complaint request_user)) e Hfit Hno)
    as (e' & w' & -> & _ & He).
  do 2 eexists. split; [reflexivity|]. auto.
Qed.

End SubmitComplaint.



(** With the categories populated, a stale model predicts a label that has
    no row: the complaint is saved without a category. *)
Lemma submit_complaint_without_category_witness :
  exists saved db',
    submit_complaint sample_lower stub_fit sample_complaint 7 stale_portal
    = (RedirectMyComplaints saved,
       {| globals := globals stale_portal; db := db';
          messages := messages stale_portal ++ [CouldNotBeDetected] |})
    /\ In saved (complaints_table db')
    /\ Complaint.get_category saved = None
    /\ get_category_display saved = lit "Uncategorized"
    /\ Complaint.user saved = 7
    /\ categories_table db' = categories_table (db stale_portal).
Proof.
  apply (submit_complaint_without_category sample_lower stub_fit
           stale_portal sample_complaint 7 (lit "Sanitation") 1.5%float
           (globals stale_portal)); reflexivity.
Defined.

Lemma submit_complaint_classifier_failure_witness :
  exists e' s',
    submit_complaint sample_lower failing_fit sample_complaint 7
      {| globals := (None, empty_world); db := populated_db; messages := [] |}
    = (ClassifierRaised e', s')
    /\ db s' = populated_db
    /\ messages s' = []
    /\ fst (globals s') = None
    /\ (e' = LibraryError 7
        \/ exists e0,
             files empty_world default_model_path = Some (Corrupt e0)
             /\ stdout_error empty_world (ErrorLoading e0) = Some e').
Proof.
  apply (submit_complaint_classifier_failure sample_lower failing_fit
           empty_world populated_db [] sample_complaint 7 (LibraryError 7)).
  - reflexivity.
  - discriminate.
Defined.
